(** * Team-board access control of the Azure DevOps work-item tools

    A shallow embedding of [src/utils/team-board-validation.ts] and of the
    request router [handleWorkItemsRequest] of
    [src/features/search/search-work-items/feature.ts], with the properties of the
    access-control layer proved over it.

    Conventions of the embedding.
    - A JavaScript string is a [string]: the sequence of its code units, taken
      in the range 0..255.  On that range [trim] and [toLowerCase] below are
      the ECMAScript ones (white space is U+0009..U+000D, U+0020 and U+00A0;
      the letters with a lower-case partner are A..Z, U+00C0..U+00D6 and
      U+00D8..U+00DE).
    - [undefined]/[null] is [None]; a value tested for truthiness is tested
      with [truthy] (a string is falsy exactly when it is empty).
    - An object used as a dictionary is an [obj]: its own properties in the
      order [Object.keys] enumerates them.  Where the code looks a name of the
      allow-list up in such an object, the properties every object inherits
      from [Object.prototype] are found too ([Obj.read]), and an assignment
      under the name [__proto__] creates no property ([Obj.assign]).  The
      cache is read and written by own properties: a project bearing the name
      of an inherited property, and a team whose lower-case name is
      [__proto__], are outside the model.
    - A number is printed by [showZ], with all its digits: the numbers from
      10^21 on, which JavaScript prints with an exponent, are outside the
      model.
    - The module-level [teamCache], and the calls made on the connection, are
      threaded through a state-and-error monad [M]. *)

From Stdlib Require Import ZArith NArith Lia List Ascii String DecimalString.
From stdpp Require Import base option list gmap strings.

Local Open Scope string_scope.
Local Open Scope list_scope.

(** ** JavaScript string primitives *)

Module Js.

Definition truthy (s : string) : bool :=
  match s with
  | EmptyString => false
  | String _ _ => true
  end.

(** [WhiteSpace] and [LineTerminator] code units below 256. *)
Definition isWhiteSpace (c : ascii) : bool :=
  let n := N_of_ascii c in
  ((9 <=? n) && (n <=? 13) || (n =? 32) || (n =? 160))%N.

(** Code units below 256 that [toLowerCase] changes. *)
Definition isUpper (c : ascii) : bool :=
  let n := N_of_ascii c in
  ((65 <=? n) && (n <=? 90)
   || (192 <=? n) && (n <=? 222) && negb (n =? 215))%N.

Definition toLowerChar (c : ascii) : ascii :=
  if isUpper c then ascii_of_N (N_of_ascii c + 32) else c.

Fixpoint toLowerCase (s : string) : string :=
  match s with
  | EmptyString => EmptyString
  | String c s' => String (toLowerChar c) (toLowerCase s')
  end.

Fixpoint trimStart (s : string) : string :=
  match s with
  | EmptyString => EmptyString
  | String c s' => if isWhiteSpace c then trimStart s' else s
  end.

Fixpoint trimEnd (s : string) : string :=
  match s with
  | EmptyString => EmptyString
  | String c s' =>
      match trimEnd s' with
      | EmptyString => if isWhiteSpace c then EmptyString else String c EmptyString
      | r => String c r
      end
  end.

Definition trim (s : string) : string := trimEnd (trimStart s).

(** [s.split(sep)] for a one-character separator: never the empty list. *)
Fixpoint split (sep : ascii) (s : string) : list string :=
  match s with
  | EmptyString => [EmptyString]
  | String c s' =>
      if Ascii.eqb c sep then EmptyString :: split sep s'
      else match split sep s' with
           | [] => [String c EmptyString]
           | seg :: rest => String c seg :: rest
           end
  end.

(** [s.startsWith(p)] *)
Definition startsWith (s p : string) : bool := String.prefix p s.

(** [s.substring(n)] for [0 <= n] *)
Fixpoint substring (n : nat) (s : string) : string :=
  match n, s with
  | O, _ => s
  | S n', String _ s' => substring n' s'
  | S _, EmptyString => EmptyString
  end.

(** [l.join(sep)] *)
Definition join (sep : string) (l : list string) : string := String.concat sep l.



(** [String(n)] for an integral number below 10^21 in absolute value *)
Definition showZ (z : Z) : string := NilZero.string_of_int (Z.to_int z).

Definition backslash : ascii := ascii_of_N 92.
Definition comma : ascii := ascii_of_N 44.

End Js.

(** ** Objects used as dictionaries

    [Object.keys] and [Object.entries] enumerate the array-index keys first,
    in ascending numeric order, and then the other keys in the order they were
    created.  An [obj] keeps the properties in that order. *)

Module Obj.

Definition obj (A : Type) : Type := list (string * A).

Definition empty {A} : obj A := [].

(** The canonical decimal strings below 2^32 - 1 are the array indices. *)
Definition arrayIndex (k : string) : option N :=
  match NilEmpty.uint_of_string k with
  | Some u =>
      let n := N.of_uint u in
      if String.eqb (NilZero.string_of_uint (N.to_uint n)) k && (n <? 4294967295)%N
      then Some n else None
  | None => None
  end.

Fixpoint get {A} (k : string) (o : obj A) : option A :=
  match o with
  | [] => None
  | (k', v) :: o' => if String.eqb k' k then Some v else get k o'
  end.

Definition has {A} (k : string) (o : obj A) : bool :=
  match get k o with Some _ => true | None => false end.

Fixpoint replace {A} (k : string) (v : A) (o : obj A) : obj A :=
  match o with
  | [] => []
  | (k', v') :: o' =>
      if String.eqb k' k then (k', v) :: o' else (k', v') :: replace k v o'
  end.

Fixpoint insertIndex {A} (n : N) (k : string) (v : A) (o : obj A) : obj A :=
  match o with
  | [] => [(k, v)]
  | (k', v') :: o' =>
      match arrayIndex k' with
      | Some n' => if (n' <? n)%N then (k', v') :: insertIndex n k v o'
                   else (k, v) :: o
      | None => (k, v) :: o
      end
  end.

(** [o[k] = v] *)
Definition set {A} (k : string) (v : A) (o : obj A) : obj A :=
  if has k o then replace k v o
  else match arrayIndex k with
       | Some n => insertIndex n k v o
       | None => o ++ [(k, v)]
       end.

Definition keys {A} (o : obj A) : list string := List.map fst o.

(** The properties an object literal inherits from [Object.prototype]. *)
Definition prototypeKeys : list string :=
  [ "constructor"; "__defineGetter__"; "__defineSetter__"; "hasOwnProperty";
    "__lookupGetter__"; "__lookupSetter__"; "isPrototypeOf";
    "propertyIsEnumerable"; "toString"; "valueOf"; "__proto__";
    "toLocaleString" ].

Definition inherits (k : string) : bool := List.existsb (String.eqb k) prototypeKeys.

(** What [o[k]] evaluates to: an own property, else an inherited one, which
    is a function or, under [__proto__], the prototype itself: truthy, and
    not a string. *)
Inductive Read (A : Type) : Type :=
| Own (a : A)
| Inherited (k : string)
| Undefined.
Arguments Own {A} a.
Arguments Inherited {A} k.
Arguments Undefined {A}.

Definition read {A} (k : string) (o : obj A) : Read A :=
  if String.eqb k "__proto__" then Inherited k
  else match get k o with
       | Some a => Own a
       | None => if inherits k then Inherited k else Undefined
       end.

(** [o[k] = v] for any [k]: under [__proto__] no property is created. *)
Definition assign {A} (k : string) (v : A) (o : obj A) : obj A :=
  if String.eqb k "__proto__" then o else set k v o.

Definition entries {A} (o : obj A) : list (string * A) := o.

End Obj.

(** ** Data of the work-tracking service *)

(** A field value: only whether it is a string matters to the policy. *)
Inductive JsValue : Type :=
| JsStr (s : string)
| JsNum (z : Z)
| JsOther.

(** [WebApiTeam]: both properties are optional in the client's interface. *)
Record WebApiTeam : Type := mkTeam {
  team_id : option string;
  team_name : option string
}.

(** [WorkItem] *)
Record WorkItem : Type := mkWorkItem {
  wi_id : option Z;
  wi_fields : option (gmap string JsValue)
}.

(** [AzureDevOpsConfig], the part the work-item tools read. *)
Record AzureDevOpsConfig : Type := mkConfig {
  organizationUrl : string;
  allowedTeamBoards : option string
}.

(** ** Errors *)

Inductive Error : Type :=
| AzureDevOpsValidationError (message : string)
| PlainError (message : string)       (* [new Error(message)] *)
| SchemaError                         (* thrown by [Schema.parse] *)
| UpstreamError (message : string).   (* thrown by a collaborator *)

(** [error instanceof Error ? error.message : String(error)] *)
Definition errorMessage (e : Error) : string :=
  match e with
  | AzureDevOpsValidationError m => m
  | PlainError m => m
  | SchemaError => "Invalid arguments"
  | UpstreamError m => m
  end.

Inductive Result (A : Type) : Type :=
| Ok (a : A)
| Err (e : Error).
Arguments Ok {A} a.
Arguments Err {A} e.

(** ** Requests and what is passed on to the work-item features *)

(** The properties a tool passes through unchanged (description,
    acceptanceCriteria, assignedTo, iterationPath, priority, ...). *)
Definition OtherFields : Type := list (string * JsValue).

Record GetWorkItemArgs : Type := mkGetArgs {
  g_workItemId : Z;
  g_expand : option string
}.

Record ListWorkItemsArgs : Type := mkListArgs {
  l_projectId : option string;
  l_teamId : option string;
  l_queryId : option string;
  l_wiql : option string;
  l_top : option Z;
  l_skip : option Z
}.

Record ListWorkItemsOptions : Type := mkListOptions {
  lo_projectId : string;
  lo_teamId : option string;
  lo_queryId : option string;
  lo_wiql : option string;
  lo_top : option Z;
  lo_skip : option Z
}.

Record CreateWorkItemArgs : Type := mkCreateArgs {
  c_projectId : option string;
  c_workItemType : string;
  c_title : string;
  c_areaPath : option string;
  c_other : OtherFields
}.

Record CreateWorkItemOptions : Type := mkCreateOptions {
  co_title : string;
  co_areaPath : option string;
  co_other : OtherFields
}.

Record UpdateWorkItemArgs : Type := mkUpdateArgs {
  u_workItemId : Z;
  u_areaPath : option string;
  u_other : OtherFields
}.

Record UpdateWorkItemOptions : Type := mkUpdateOptions {
  uo_areaPath : option string;
  uo_other : OtherFields
}.

Record ManageWorkItemLinkArgs : Type := mkLinkArgs {
  k_projectId : option string;
  k_sourceWorkItemId : Z;
  k_targetWorkItemId : Z;
  k_operation : string;
  k_relationType : string;
  k_other : OtherFields
}.

Record ManageWorkItemLinkOptions : Type := mkLinkOptions {
  ko_sourceWorkItemId : Z;
  ko_targetWorkItemId : Z;
  ko_operation : string;
  ko_relationType : string;
  ko_other : OtherFields
}.

(** [request.params]: the tool name with its arguments as [Schema.parse]
    returns them; [None] stands for arguments the schema rejects, and
    [other_tool] carries a name that is none of the five. *)
Inductive CallToolRequest : Type :=
| get_work_item (args : option GetWorkItemArgs)
| list_work_items (args : option ListWorkItemsArgs)
| create_work_item (args : option CreateWorkItemArgs)
| update_work_item (args : option UpdateWorkItemArgs)
| manage_work_item_link (args : option ManageWorkItemLinkArgs)
| other_tool (name : string).

(** [{ content: [{ type: 'text', text: JSON.stringify(result, null, 2) }] }] *)
Inductive CallToolResponse : Type :=
| TextOfWorkItem (result : WorkItem)
| TextOfWorkItems (result : list WorkItem).

(** ** The connection and the calls made on it *)

Inductive Call : Type :=
| CallGetTeams (projectId : string)
| CallWitGetWorkItem (workItemId : Z)
| CallGetWorkItem (workItemId : Z) (expand : option string)
| CallListWorkItems (options : ListWorkItemsOptions)
| CallCreateWorkItem (projectId workItemType : string) (options : CreateWorkItemOptions)
| CallUpdateWorkItem (workItemId : Z) (options : UpdateWorkItemOptions)
| CallManageWorkItemLink (projectId : string) (options : ManageWorkItemLinkOptions).

(** What the service answers.  [coreGetTeams] is
    [(await connection.getCoreApi()).getTeams(projectId)], [witGetWorkItem] is
    [(await connection.getWorkItemTrackingApi()).getWorkItem(id, undefined,
    undefined, WorkItemExpand.All)]; the others are the work-item features the
    router imports. *)
Record WebApi : Type := mkWebApi {
  coreGetTeams : string -> Result (list WebApiTeam);
  witGetWorkItem : Z -> Result (option WorkItem);
  getWorkItem : Z -> option string -> Result WorkItem;
  listWorkItems : ListWorkItemsOptions -> Result (list WorkItem);
  createWorkItem : string -> string -> CreateWorkItemOptions -> Result WorkItem;
  updateWorkItem : Z -> UpdateWorkItemOptions -> Result WorkItem;
  manageWorkItemLink : string -> ManageWorkItemLinkOptions -> Result WorkItem
}.

(** ** State: the team cache and the log of calls *)

Record State : Type := mkState {
  teamCache : gmap string (Obj.obj string);
  calls : list Call
}.

Definition M (A : Type) : Type := State -> Result A * State.

Definition ret {A} (a : A) : M A := fun st => (Ok a, st).

Definition throw {A} (e : Error) : M A := fun st => (Err e, st).

Definition bind {A B} (m : M A) (k : A -> M B) : M B :=
  fun st =>
    match m st with
    | (Ok a, st') => k a st'
    | (Err e, st') => (Err e, st')
    end.

Notation "'let!' x ':=' m 'in' k" := (bind m (fun x => k))
  (at level 10, x pattern, m at level 100, k at level 200).
Notation "m ';;' k" := (bind m (fun _ => k))
  (at level 100, k at level 200, right associativity).

(** An awaited call on the connection: logged, then answered or thrown. *)
Definition await {A} (c : Call) (answer : Result A) : M A :=
  fun st => (answer, mkState (teamCache st) (calls st ++ [c])).

Definition getCache : M (gmap string (Obj.obj string)) :=
  fun st => (Ok (teamCache st), st).

Definition putCache (c : gmap string (Obj.obj string)) : M unit :=
  fun st => (Ok tt, mkState c (calls st)).

(** ** [team-board-validation.ts]

    [debugLog] only writes to the standard error stream and to a log file;
    it is left out. *)

Section Validation.

Import Js.

(** Parse the allowedTeamBoards configuration into an array of team names. *)
Definition parseAllowedTeamBoards (allowedTeamBoards : option string)
  : option (list string) :=
  match allowedTeamBoards with
  | None => None
  | Some raw =>
      if negb (truthy raw) || String.eqb (trim raw) "" then None
      else Some (List.filter (fun team => (0 <? String.length team)%nat)
                   (List.map trim (split comma raw)))
  end.

(** Get all teams for a project. *)
Definition getAllTeams (connection : WebApi) (projectId : string)
  : M (list WebApiTeam) :=
  fun st =>
    match await (CallGetTeams projectId) (coreGetTeams connection projectId) st with
    | (Ok teams, st') => (Ok teams, st')
    | (Err error, st') =>
        (Err (AzureDevOpsValidationError
                ("Failed to get teams for project '" ++ projectId ++ "': "
                 ++ errorMessage error)), st')
    end.

(** The loop over [Object.entries(teamCache[projectId])]. *)
Definition findNameOfId (entries : list (string * string)) (teamId : string)
  : option string :=
  match List.find (fun '(_, id) => String.eqb id teamId) entries with
  | Some (name, _) => Some name
  | None => None
  end.

Definition cachedTeamName (cache : gmap string (Obj.obj string))
  (projectId teamId : string) : option string :=
  match cache !! projectId with
  | Some byName => findNameOfId (Obj.entries byName) teamId
  | None => None
  end.

(** [teamCache[projectId][name] = id], creating [teamCache[projectId]] when
    it is missing. *)
Definition cacheTeam (projectId name id : string)
  (cache : gmap string (Obj.obj string)) : gmap string (Obj.obj string) :=
  <[projectId := Obj.set name id (default Obj.empty (cache !! projectId))]> cache.

(** [t.id === teamId] *)
Definition hasId (teamId : string) (t : WebApiTeam) : bool :=
  match team_id t with
  | Some id => String.eqb id teamId
  | None => false
  end.

(** [team.name && team.id] *)
Definition namedTeam (t : WebApiTeam) : option (string * string) :=
  match team_name t, team_id t with
  | Some name, Some id => if truthy name && truthy id then Some (name, id) else None
  | _, _ => None
  end.

(** Get the team name for a given team ID. *)
Definition getTeamNameById (connection : WebApi) (projectId teamId : string)
  : M (option string) :=
  let! cache := getCache in
  match cachedTeamName cache projectId teamId with
  | Some name => ret (Some name)
  | None =>
      let! teams := getAllTeams connection projectId in
      match List.find (hasId teamId) teams with
      | Some team =>
          match namedTeam team with
          | Some (teamName, teamIdValue) =>
              let! cache' := getCache in
              putCache (cacheTeam projectId (toLowerCase teamName) teamIdValue cache') ;;
              ret (Some teamName)
          | None => ret None
          end
      | None => ret None
      end
  end.

(** Validate if a team is allowed based on the configuration. *)
Definition isTeamAllowed (allowedTeamBoards : option (list string))
  (teamName : string) : bool :=
  match allowedTeamBoards with
  | None => false
  | Some [] => false
  | Some allowed =>
      List.existsb
        (fun allowedTeam => String.eqb (toLowerCase allowedTeam) (toLowerCase teamName))
        allowed
  end.

(** What [teamMap[name]] holds when it is truthy: the ID of a team, or what
    every object inherits under that name. *)
Inductive TeamIdValue : Type :=
| TeamId (id : string)
| InheritedValue (key : string).

(** [{ id: teamId }] *)
Record TeamRef : Type := mkTeamRef { ref_id : TeamIdValue }.

(** The first loop of [getAllowedTeamIds]: one pass over the fetched teams,
    filling [teamMap] and the cache. *)
Definition recordTeam (projectId : string)
  (acc : Obj.obj string * gmap string (Obj.obj string)) (team : WebApiTeam)
  : Obj.obj string * gmap string (Obj.obj string) :=
  match team_name team, team_id team with
  | Some name, Some id =>
      if truthy name && truthy id
      then (Obj.set (toLowerCase name) id (fst acc),
            cacheTeam projectId (toLowerCase name) id (snd acc))
      else acc
  | _, _ => acc
  end.

(** [teamMap[teamName.toLowerCase()]], kept when truthy. *)
Definition lookupTeamId (teamMap : Obj.obj string) (teamName : string)
  : option TeamIdValue :=
  match Obj.read (toLowerCase teamName) teamMap with
  | Obj.Own id => if truthy id then Some (TeamId id) else None
  | Obj.Inherited key => Some (InheritedValue key)
  | Obj.Undefined => None
  end.

(** The second loop: the result map and the names not found. *)
Definition resolveName (teamMap : Obj.obj string)
  (acc : Obj.obj TeamRef * list string) (teamName : string)
  : Obj.obj TeamRef * list string :=
  match lookupTeamId teamMap teamName with
  | Some teamId => (Obj.assign teamName (mkTeamRef teamId) (fst acc), snd acc)
  | None => (fst acc, snd acc ++ [teamName])
  end.

(** [allTeams.map((t) => t.name || 'Unknown').filter(Boolean)] *)
Definition availableTeams (allTeams : list WebApiTeam) : list string :=
  List.filter truthy
    (List.map (fun t => match team_name t with
                        | Some name => if truthy name then name else "Unknown"
                        | None => "Unknown"
                        end) allTeams).

Definition notFoundMessage (projectId : string) (notFound : list string)
  (allTeams : list WebApiTeam) : string :=
  "The following team boards are not found in project '" ++ projectId ++ "': "
  ++ join ", " notFound ++ ". "
  ++ "Available teams: " ++ join ", " (availableTeams allTeams) ++ ". "
  ++ "Please check AZURE_DEVOPS_ALLOWED_TEAM_BOARDS configuration.".

(** Get team IDs for allowed team names. *)
Definition getAllowedTeamIds (connection : WebApi) (projectId : string)
  (allowedTeamNames : list string) : M (Obj.obj TeamRef) :=
  let! allTeams := await (CallGetTeams projectId) (coreGetTeams connection projectId) in
  let! cache := getCache in
  let '(teamMap, cache') :=
    List.fold_left (recordTeam projectId) allTeams (Obj.empty, cache) in
  putCache cache' ;;
  let '(result, notFound) :=
    List.fold_left (resolveName teamMap) allowedTeamNames (Obj.empty, []) in
  if (0 <? List.length notFound)%nat
  then throw (AzureDevOpsValidationError (notFoundMessage projectId notFound allTeams))
  else ret result.

(** [workItem.fields?.[key]], kept when it is a non-empty string. *)
Definition stringField (workItem : WorkItem) (key : string) : option string :=
  match wi_fields workItem with
  | Some fields =>
      match fields !! key with
      | Some (JsStr s) => if truthy s then Some s else None
      | _ => None
      end
  | None => None
  end.

(** Get the team ID from a work item's fields. *)
Definition getWorkItemTeamId (workItem : WorkItem) : option string :=
  stringField workItem "System.TeamId".

(** Get the area path from a work item's fields. *)
Definition getWorkItemAreaPath (workItem : WorkItem) : option string :=
  stringField workItem "System.AreaPath".

(** Extract the team name from an area path. *)
Definition extractTeamNameFromAreaPath (areaPath projectId : string)
  : option string :=
  let pathWithoutProject :=
    if startsWith areaPath (projectId ++ String backslash "")
    then substring (String.length projectId + 1) areaPath
    else areaPath in
  match split backslash pathWithoutProject with
  | segment :: _ => if truthy segment then Some segment else None
  | [] => None
  end.

(** [`${workItem.id}`] *)
Definition showId (id : option Z) : string :=
  match id with
  | Some z => showZ z
  | None => "undefined"
  end.

Definition noBoardsMessage : string :=
  "Board access is restricted. No team boards are configured in AZURE_DEVOPS_ALLOWED_TEAM_BOARDS. "
  ++ "To enable board access, set AZURE_DEVOPS_ALLOWED_TEAM_BOARDS to a comma-separated list of team names.".

Definition teamIdNotFoundMessage (workItem : WorkItem) (teamId projectId : string) : string :=
  "Cannot verify team board access for work item #" ++ showId (wi_id workItem) ++ ". "
  ++ "Team ID '" ++ teamId ++ "' not found in project '" ++ projectId ++ "'. "
  ++ "Please ensure the team exists and is configured in AZURE_DEVOPS_ALLOWED_TEAM_BOARDS.".

Definition noTeamOrAreaMessage (workItem : WorkItem) : string :=
  "Cannot verify team board access for work item #" ++ showId (wi_id workItem) ++ ". "
  ++ "The work item does not have an associated team or area path. "
  ++ "Please ensure the work item is assigned to a team that is in AZURE_DEVOPS_ALLOWED_TEAM_BOARDS.".

Definition noTeamInAreaMessage (workItem : WorkItem) (areaPath : string) : string :=
  "Cannot verify team board access for work item #" ++ showId (wi_id workItem) ++ ". "
  ++ "Could not extract team name from area path '" ++ areaPath ++ "'. "
  ++ "Please ensure the work item is assigned to a team that is in AZURE_DEVOPS_ALLOWED_TEAM_BOARDS.".

Definition itemDeniedMessage (workItem : WorkItem) (teamName : string)
  (allowedTeams : list string) : string :=
  "Access denied. Work item #" ++ showId (wi_id workItem) ++ " belongs to team board '"
  ++ teamName ++ "' which is not in the allowed list. "
  ++ "Allowed teams: " ++ join ", " allowedTeams ++ ". "
  ++ "Please add '" ++ teamName ++ "' to AZURE_DEVOPS_ALLOWED_TEAM_BOARDS if you need access.".

Definition teamNotFoundMessage (teamId projectId : string) : string :=
  "Cannot verify team board access. Team '" ++ teamId ++ "' not found in project '"
  ++ projectId ++ "'. "
  ++ "Ensure the team exists and is configured in AZURE_DEVOPS_ALLOWED_TEAM_BOARDS.".

Definition teamDeniedMessage (teamName : string) (allowedTeams : list string) : string :=
  "Access denied. Team board '" ++ teamName ++ "' is not in the allowed list. "
  ++ "Allowed teams: " ++ join ", " allowedTeams ++ ". "
  ++ "Please add '" ++ teamName ++ "' to AZURE_DEVOPS_ALLOWED_TEAM_BOARDS if you need access.".

(** [!allowedTeams || allowedTeams.length === 0] is false: the list. *)
Definition configuredTeams (allowedTeams : option (list string))
  : option (list string) :=
  match allowedTeams with
  | Some (team :: teams) => Some (team :: teams)
  | _ => None
  end.

(** [!teamName] for [teamName : string | null] *)
Definition present (teamName : option string) : option string :=
  match teamName with
  | Some name => if truthy name then Some name else None
  | None => None
  end.

(** Validate that a work item belongs to an allowed team. *)
Definition validateWorkItemTeamAccess (config : AzureDevOpsConfig)
  (connection : WebApi) (projectId : string) (workItem : WorkItem) : M unit :=
  let allowedTeams := parseAllowedTeamBoards (allowedTeamBoards config) in
  match configuredTeams allowedTeams with
  | None => throw (AzureDevOpsValidationError noBoardsMessage)
  | Some allowed =>
      let! teamName :=
        match getWorkItemTeamId workItem with
        | Some workItemTeamId =>
            let! teamName := getTeamNameById connection projectId workItemTeamId in
            match present teamName with
            | None => throw (AzureDevOpsValidationError
                               (teamIdNotFoundMessage workItem workItemTeamId projectId))
            | Some name => ret name
            end
        | None =>
            match getWorkItemAreaPath workItem with
            | None => throw (AzureDevOpsValidationError (noTeamOrAreaMessage workItem))
            | Some areaPath =>
                match present (extractTeamNameFromAreaPath areaPath projectId) with
                | None => throw (AzureDevOpsValidationError
                                   (noTeamInAreaMessage workItem areaPath))
                | Some name => ret name
                end
            end
        end in
      if negb (isTeamAllowed allowedTeams teamName)
      then throw (AzureDevOpsValidationError (itemDeniedMessage workItem teamName allowed))
      else ret tt
  end.

(** Validate team board access for listing work items. *)
Definition validateTeamBoardAccess (config : AzureDevOpsConfig)
  (connection : WebApi) (projectId : string) (teamId : option string) : M unit :=
  let allowedTeams := parseAllowedTeamBoards (allowedTeamBoards config) in
  match configuredTeams allowedTeams with
  | None => throw (AzureDevOpsValidationError noBoardsMessage)
  | Some allowed =>
      match present teamId with
      | Some teamId =>
          let! teamName := getTeamNameById connection projectId teamId in
          match present teamName with
          | None => throw (AzureDevOpsValidationError (teamNotFoundMessage teamId projectId))
          | Some teamName =>
              if negb (isTeamAllowed allowedTeams teamName)
              then throw (AzureDevOpsValidationError (teamDeniedMessage teamName allowed))
              else ret tt
          end
      | None => ret tt
      end
  end.

(** Fetch and validate a work item. *)
Definition fetchAndValidateWorkItem (config : AzureDevOpsConfig)
  (connection : WebApi) (projectId : string) (workItemId : Z) : M WorkItem :=
  let! workItem :=
    await (CallWitGetWorkItem workItemId) (witGetWorkItem connection workItemId) in
  match workItem with
  | None => throw (AzureDevOpsValidationError
                     ("Work item '" ++ showZ workItemId ++ "' not found"))
  | Some workItem =>
      validateWorkItemTeamAccess config connection projectId workItem ;;
      ret workItem
  end.

End Validation.

(** ** The request router of the work-item tools *)

Section Router.

Import Js.

(** [defaultProject] of [utils/environment]. *)
Variable defaultProject : string.

(** [Schema.parse(request.params.arguments)] *)
Definition parsed {A} (args : option A) : M A :=
  match args with
  | Some a => ret a
  | None => throw SchemaError
  end.

(** [`[System.AreaPath] UNDER '${projectId}\\${teamName}'`] *)
Definition areaPathCondition (projectId teamName : string) : string :=
  "[System.AreaPath] UNDER '" ++ projectId ++ String backslash "" ++ teamName ++ "'".

(** The WIQL query of a listing scoped to the allowed teams. *)
Definition allowedTeamsWiql (projectId : string) (teamNames : list string) : string :=
  "SELECT [System.Id] FROM WorkItems WHERE [System.TeamProject] = '" ++ projectId
  ++ "' AND (" ++ join " OR " (List.map (areaPathCondition projectId) teamNames)
  ++ ") ORDER BY [System.Id]".

Definition multipleBoardsMessage (projectId : string) (allowedTeams : list string)
  : string :=
  "Multiple team boards are configured (" ++ join ", " allowedTeams ++ "). "
  ++ "Please specify the areaPath parameter to indicate which team's area to create the work item in. "
  ++ "Example: areaPath: '" ++ projectId ++ String backslash ""
  ++ List.hd "undefined" allowedTeams ++ "'".

Definition noBoardsForCreationMessage : string :=
  "Board access is restricted. No team boards are configured in AZURE_DEVOPS_ALLOWED_TEAM_BOARDS. "
  ++ "To enable work item creation, set AZURE_DEVOPS_ALLOWED_TEAM_BOARDS to a comma-separated list of team names.".

(** The [create_work_item] case up to the call: the effective area path. *)
Definition effectiveAreaPath (config : option AzureDevOpsConfig)
  (projectId : string) (areaPath : option string) : M (option string) :=
  match config, present areaPath with
  | Some config, None =>
      match parseAllowedTeamBoards (allowedTeamBoards config) with
      | Some [team] => ret (Some (projectId ++ String backslash "" ++ team)%string)
      | Some (team :: team' :: teams) =>
          throw (AzureDevOpsValidationError
                   (multipleBoardsMessage projectId (team :: team' :: teams)))
      | _ => throw (AzureDevOpsValidationError noBoardsForCreationMessage)
      end
  | _, _ => ret areaPath
  end.

(** Handles work items feature requests. *)
Definition handleWorkItemsRequest (connection : WebApi)
  (request : CallToolRequest) (config : option AzureDevOpsConfig)
  : M CallToolResponse :=
  match config with
  | Some config => validateTeamBoardAccess config connection defaultProject None
  | None => ret tt
  end ;;
  match request with
  | get_work_item args =>
      let! args := parsed args in
      match config with
      | Some config =>
          let! result := fetchAndValidateWorkItem config connection defaultProject
                           (g_workItemId args) in
          ret (TextOfWorkItem result)
      | None =>
          let! result := await (CallGetWorkItem (g_workItemId args) (g_expand args))
                           (getWorkItem connection (g_workItemId args) (g_expand args)) in
          ret (TextOfWorkItem result)
      end
  | list_work_items args =>
      let! args := parsed args in
      let projectId := default defaultProject (l_projectId args) in
      let unrestricted :=
        mkListOptions projectId (l_teamId args) (l_queryId args) (l_wiql args)
          (l_top args) (l_skip args) in
      match config with
      | Some config =>
          let allowedTeams := parseAllowedTeamBoards (allowedTeamBoards config) in
          match configuredTeams allowedTeams with
          | None => throw (PlainError noBoardsMessage)
          | Some allowed =>
              match present (l_teamId args) with
              | Some teamId =>
                  validateTeamBoardAccess config connection projectId (Some teamId) ;;
                  let! result := await (CallListWorkItems unrestricted)
                                   (listWorkItems connection unrestricted) in
                  ret (TextOfWorkItems result)
              | None =>
                  let! teamsData := getAllowedTeamIds connection projectId allowed in
                  let wiql := allowedTeamsWiql projectId (Obj.keys teamsData) in
                  let scoped :=
                    mkListOptions projectId None None (Some wiql)
                      (l_top args) (l_skip args) in
                  let! result := await (CallListWorkItems scoped)
                                   (listWorkItems connection scoped) in
                  ret (TextOfWorkItems result)
              end
          end
      | None =>
          let! result := await (CallListWorkItems unrestricted)
                           (listWorkItems connection unrestricted) in
          ret (TextOfWorkItems result)
      end
  | create_work_item args =>
      let! args := parsed args in
      let projectId := default defaultProject (c_projectId args) in
      let! areaPath := effectiveAreaPath config projectId (c_areaPath args) in
      let options := mkCreateOptions (c_title args) areaPath (c_other args) in
      let! result := await (CallCreateWorkItem projectId (c_workItemType args) options)
                       (createWorkItem connection projectId (c_workItemType args) options) in
      ret (TextOfWorkItem result)
  | update_work_item args =>
      let! args := parsed args in
      match config with
      | Some config =>
          let! _ := fetchAndValidateWorkItem config connection defaultProject
                      (u_workItemId args) in
          ret tt
      | None => ret tt
      end ;;
      let options := mkUpdateOptions (u_areaPath args) (u_other args) in
      let! result := await (CallUpdateWorkItem (u_workItemId args) options)
                       (updateWorkItem connection (u_workItemId args) options) in
      ret (TextOfWorkItem result)
  | manage_work_item_link args =>
      let! args := parsed args in
      let projectId := default defaultProject (k_projectId args) in
      match config with
      | Some config =>
          let! _ := fetchAndValidateWorkItem config connection projectId
                      (k_sourceWorkItemId args) in
          let! _ := fetchAndValidateWorkItem config connection projectId
                      (k_targetWorkItemId args) in
          ret tt
      | None => ret tt
      end ;;
      let options :=
        mkLinkOptions (k_sourceWorkItemId args) (k_targetWorkItemId args)
          (k_operation args) (k_relationType args) (k_other args) in
      let! result := await (CallManageWorkItemLink projectId options)
                       (manageWorkItemLink connection projectId options) in
      ret (TextOfWorkItem result)
  | other_tool name => throw (PlainError ("Unknown work items tool: " ++ name)%string)
  end.

End Router.

(** ** Notions used in the statements *)

(** The allow-list is absent, blank, or parses to the empty list. *)
Inductive NoBoards (config : AzureDevOpsConfig) : Prop :=
| boards_absent :
    allowedTeamBoards config = None -> NoBoards config
| boards_blank raw :
    allowedTeamBoards config = Some raw -> Js.trim raw = "" -> NoBoards config
| boards_none_listed :
    parseAllowedTeamBoards (allowedTeamBoards config) = Some [] -> NoBoards config.

(** ** A sample project, for the worked instances below *)

Module Sample.

Definition teams : list WebApiTeam :=
  [ mkTeam (Some "id-alpha") (Some "Alpha");
    mkTeam (Some "id-beta") (Some "Beta");
    mkTeam (Some "id-gamma") (Some "Gamma") ].

Definition item (id : Z) (fields : list (string * JsValue)) : WorkItem :=
  mkWorkItem (Some id) (Some (list_to_map fields)).

Definition inAlphaArea : WorkItem := item 1 [("System.AreaPath", JsStr "ProjectX\Alpha\Sub")].
Definition onBetaBoard : WorkItem := item 2 [("System.TeamId", JsStr "id-beta")].
Definition inRootArea : WorkItem := item 3 [("System.AreaPath", JsStr "ProjectX")].
Definition inGammaArea : WorkItem := item 4 [("System.AreaPath", JsStr "ProjectX\Gamma")].

Definition items (id : Z) : option WorkItem :=
  if (id =? 1)%Z then Some inAlphaArea
  else if (id =? 2)%Z then Some onBetaBoard
  else if (id =? 3)%Z then Some inRootArea
  else if (id =? 4)%Z then Some inGammaArea
  else None.

Definition touched : WorkItem := mkWorkItem (Some 100%Z) None.

Definition connection : WebApi :=
  {| coreGetTeams := fun projectId =>
       if String.eqb projectId "ProjectX" then Ok teams
       else Err (UpstreamError "project does not exist");
     witGetWorkItem := fun id => Ok (items id);
     getWorkItem := fun id _ =>
       match items id with
       | Some w => Ok w
       | None => Err (UpstreamError "work item does not exist")
       end;
     listWorkItems := fun _ => Ok [inAlphaArea];
     createWorkItem := fun _ _ _ => Ok touched;
     updateWorkItem := fun _ _ => Ok touched;
     manageWorkItemLink := fun _ _ => Ok touched |}.

Definition config (boards : option string) : AzureDevOpsConfig :=
  mkConfig "https://dev.azure.com/contoso" boards.

Definition fresh : State := mkState ∅ [].

End Sample.

(** A capital letter with its small partner, for the letters that have
    exactly one of each: A..Z, U+00C0..U+00D6 and U+00D8..U+00DE, the
    partner lying 32 further. *)
Definition casePair (capital small : ascii) : Prop :=
  let n := N_of_ascii capital in
  ((65 <= n <= 90) \/ (192 <= n <= 214) \/ (216 <= n <= 222))%N
  /\ N_of_ascii small = (n + 32)%N.

(** Two code units that are the same letter, up to its case. *)
Definition sameLetter (c c' : ascii) : Prop :=
  c = c' \/ casePair c c' \/ casePair c' c.

(** Two strings that differ only in the case of their letters. *)
Inductive caseVariant : string -> string -> Prop :=
| caseVariant_empty : caseVariant "" ""
| caseVariant_letter c c' s s' :
    sameLetter c c' -> caseVariant s s' -> caseVariant (String c s) (String c' s').

(** The team ID is the value of some entry of the project's cache. *)
Definition cachedId (cache : gmap string (Obj.obj string))
  (projectId teamId : string) : Prop :=
  exists byName name,
    cache !! projectId = Some byName /\ In (name, teamId) (Obj.entries byName).

(** [teamCache[projectId]?.[key]] *)
Definition cacheEntry (cache : gmap string (Obj.obj string))
  (projectId key : string) : option string :=
  match cache !! projectId with
  | Some byName => Obj.get key byName
  | None => None
  end.

(** The state once a call has been made on the connection. *)
Definition logged (c : Call) (st : State) : State :=
  mkState (teamCache st) (calls st ++ [c]).

(** The response built from what a work-item feature answers. *)
Definition respond {A} (wrap : A -> CallToolResponse) (answer : Result A)
  : Result CallToolResponse :=
  match answer with
  | Ok a => Ok (wrap a)
  | Err e => Err e
  end.

(** The calls that change work items. *)
Definition isMutation (c : Call) : bool :=
  match c with
  | CallCreateWorkItem _ _ _ | CallUpdateWorkItem _ _ | CallManageWorkItemLink _ _ => true
  | _ => false
  end.

Definition mutations (st : State) : list Call := List.filter isMutation (calls st).

(** A computation that makes no call changing work items. *)
Definition readOnly {A} (m : M A) : Prop :=
  forall st, mutations (snd (m st)) = mutations st.

(** The team a lookup by ID finds in the fetched list: the first one with
    that ID, provided it has a name. *)
Definition resolvedTeam (teamId : string) (teams : list WebApiTeam)
  : option (string * string) :=
  match List.find (hasId teamId) teams with
  | Some team => namedTeam team
  | None => None
  end.

(** The ID a team name resolves to in a team list: that of the last team
    with a name and an ID whose name is the given one up to case. *)
Fixpoint matchingTeamId (teams : list WebApiTeam) (teamName : string)
  : option string :=
  match teams with
  | [] => None
  | team :: rest =>
      match matchingTeamId rest teamName with
      | Some id => Some id
      | None =>
          match namedTeam team with
          | Some (name, id) =>
              if String.eqb (Js.toLowerCase name) (Js.toLowerCase teamName)
              then Some id else None
          | None => None
          end
      end
  end.

(** The requested names without a match in the team list. *)
Definition unmatchedNames (teams : list WebApiTeam) (names : list string)
  : list string :=
  List.filter (fun name => match matchingTeamId teams name with
                           | Some _ => false
                           | None => true
                           end) names.

(** ** Notions used for the rest of the code *)

(** A team name as the parser delivers it: not empty, nothing to trim, no
    comma. *)
Definition cleanName (name : string) : Prop :=
  Js.truthy name = true
  /\ Js.trim name = name
  /\ ~ In Js.comma (list_ascii_of_string name).

(** A string that does not start with white space. *)
Definition startsClean (s : string) : Prop :=
  match s with
  | EmptyString => True
  | String c _ => Js.isWhiteSpace c = false
  end.

(** The cache after any number of assignments
    [teamCache[projectId][name.toLowerCase()] = id] with [name] and [id]
    non-empty: the only way the code writes to the cache. *)
Inductive cacheSteps (cache : gmap string (Obj.obj string))
  : gmap string (Obj.obj string) -> Prop :=
| cacheSteps_none : cacheSteps cache cache
| cacheSteps_more cache' projectId name id :
    cacheSteps cache cache' ->
    Js.truthy name = true -> Js.truthy id = true ->
    cacheSteps cache (cacheTeam projectId (Js.toLowerCase name) id cache').

(** A computation that writes to the cache only in that way. *)
Definition cacheOnlyGrows {A} (m : M A) : Prop :=
  forall st, cacheSteps (teamCache st) (teamCache (snd (m st))).

(** Every cached name is in lower case and every cached ID is not empty. *)
Definition cacheWellFormed (cache : gmap string (Obj.obj string)) : Prop :=
  forall projectId key id,
    cacheEntry cache projectId key = Some id ->
    Js.toLowerCase key = key /\ Js.truthy id = true.

(** The requests that only read work items. *)
Definition readsOnly (request : CallToolRequest) : bool :=
  match request with
  | get_work_item _ | list_work_items _ => true
  | _ => false
  end.

(** What a request raises that the router cannot serve: arguments the schema
    rejects, or a tool that is not one of the five. *)
Definition rejection (request : CallToolRequest) : option Error :=
  match request with
  | get_work_item None | list_work_items None | create_work_item None
  | update_work_item None | manage_work_item_link None => Some SchemaError
  | other_tool name => Some (PlainError ("Unknown work items tool: " ++ name)%string)
  | _ => None
  end.

(** No configuration, or one with boards: the cases in which the check the
    router starts with lets the request through. *)
Definition opensRouter (config : option AzureDevOpsConfig) : Prop :=
  match config with
  | Some config =>
      exists allowed,
        configuredTeams (parseAllowedTeamBoards (allowedTeamBoards config)) = Some allowed
  | None => True
  end.

(** The call by which a tool changes work items. *)
Definition ownMutation (request : CallToolRequest) (c : Call) : bool :=
  match request, c with
  | create_work_item _, CallCreateWorkItem _ _ _ => true
  | update_work_item _, CallUpdateWorkItem _ _ => true
  | manage_work_item_link _, CallManageWorkItemLink _ _ => true
  | _, _ => false
  end.

(** A computation that changes work items by at most one call, of the given
    kind. *)
Definition mutatesAtMostOnce {A} (kind : Call -> bool) (m : M A) : Prop :=
  forall st,
    mutations (snd (m st)) = mutations st
    \/ exists c, kind c = true /\ mutations (snd (m st)) = mutations st ++ [c].

(** ** Notions used for names that meet inherited properties *)

(** The name, in lower case, is the name of a property every object
    inherits: with lower-case letters only, that is "constructor" or
    "__proto__". *)
Definition inheritedName (name : string) : bool :=
  Obj.inherits (Js.toLowerCase name).

(** What the code finds under a requested name, told from the team list:
    the ID the name resolves to, or what every object inherits under the
    lower-case name; under "__proto__" always the latter. *)
Definition foundUnder (teams : list WebApiTeam) (teamName : string)
  : option TeamIdValue :=
  let key := Js.toLowerCase teamName in
  if String.eqb key "__proto__" then Some (InheritedValue key)
  else match matchingTeamId teams teamName with
       | Some id => Some (TeamId id)
       | None => if Obj.inherits key then Some (InheritedValue key) else None
       end.

(** The requested names that match no team and no inherited property. *)
Definition notFoundNames (teams : list WebApiTeam) (names : list string)
  : list string :=
  List.filter (fun name => negb (inheritedName name)) (unmatchedNames teams names).

(** The name under which a team appears in a message. *)
Definition listedName (team : WebApiTeam) : string :=
  match team_name team with
  | Some (String c rest) => String c rest
  | _ => "Unknown"
  end.

(** The text that reports the names not found. *)
Definition notFoundText (projectId : string) (notFound : list string)
  (teams : list WebApiTeam) : string :=
  "The following team boards are not found in project '" ++ projectId ++ "': "
  ++ String.concat ", " notFound
  ++ ". Available teams: " ++ String.concat ", " (List.map listedName teams)
  ++ ". Please check AZURE_DEVOPS_ALLOWED_TEAM_BOARDS configuration.".


(** * Properties *)

(** ** Worked instances of the primitives *)

Example split_blank : Js.split Js.comma "" = [""].
Proof. reflexivity. Qed.

Example split_three : Js.split Js.comma "a, b,,c" = ["a"; " b"; ""; "c"].
Proof. reflexivity. Qed.

Example trim_inner : Js.trim "  Team Alpha  " = "Team Alpha".
Proof. reflexivity. Qed.

Example lower_mixed : Js.toLowerCase "Team Alpha" = "team alpha".
Proof. reflexivity. Qed.

Example show_id : Js.showZ 42 = "42".
Proof. reflexivity. Qed.

Example obj_keys_creation_order :
  Obj.keys (Obj.set "Alpha" 3 (Obj.set "Beta" 2 (Obj.set "Alpha" 1 Obj.empty)))
  = ["Alpha"; "Beta"].
Proof. reflexivity. Qed.

Example obj_keys_indices_first :
  Obj.keys (Obj.set "7" 3 (Obj.set "10" 2 (Obj.set "Alpha" 1 Obj.empty)))
  = ["7"; "10"; "Alpha"].
Proof. reflexivity. Qed.

Example obj_keys_noncanonical : Obj.arrayIndex "007" = None.
Proof. reflexivity. Qed.

(** ** Lookup after assignment in an [obj] *)

Module ObjFacts.
Import Obj.

Section Lookup.
Context {A : Type}.
Implicit Types (o : obj A) (k : string) (v : A).

Lemma get_replace_eq k v o : has k o = true -> get k (replace k v o) = Some v.
Proof.
  unfold has. induction o as [|[k' v'] o IH]; simpl; [discriminate|].
  destruct (String.eqb_spec k' k) as [->|Hne]; simpl.
  - now rewrite String.eqb_refl.
  - intros H. destruct (String.eqb_spec k' k); [contradiction|]. now apply IH.
Qed.

Lemma get_replace_ne k k' v o : k <> k' -> get k' (replace k v o) = get k' o.
Proof.
  intros Hne. induction o as [|[k0 v0] o IH]; simpl; [reflexivity|].
  destruct (String.eqb_spec k0 k) as [->|Hk0]; simpl.
  - destruct (String.eqb_spec k k'); [contradiction|reflexivity].
  - now rewrite IH.
Qed.

Lemma get_insertIndex_eq n k v o : has k o = false -> get k (insertIndex n k v o) = Some v.
Proof.
  unfold has. induction o as [|[k' v'] o IH]; simpl.
  - now rewrite String.eqb_refl.
  - destruct (String.eqb_spec k' k) as [->|Hne]; [discriminate|]. intros H.
    destruct (arrayIndex k') as [n'|]; [destruct (n' <? n)%N|]; simpl;
      rewrite ?String.eqb_refl; trivial.
    destruct (String.eqb_spec k' k); [contradiction|]. now apply IH.
Qed.

Lemma get_insertIndex_ne n k k' v o : k <> k' -> get k' (insertIndex n k v o) = get k' o.
Proof.
  intros Hne. induction o as [|[k0 v0] o IH]; simpl.
  - now destruct (String.eqb_spec k k').
  - destruct (arrayIndex k0) as [n'|]; [destruct (n' <? n)%N|]; simpl.
    + now rewrite IH.
    + now destruct (String.eqb_spec k k').
    + now destruct (String.eqb_spec k k').
Qed.

Lemma get_app o1 o2 k :
  get k (o1 ++ o2) = match get k o1 with Some v => Some v | None => get k o2 end.
Proof.
  induction o1 as [|[k' v'] o1 IH]; simpl; [reflexivity|].
  now destruct (String.eqb k' k).
Qed.

(** Reading back the property just assigned. *)
Lemma get_set_eq k v o : get k (set k v o) = Some v.
Proof.
  unfold set. destruct (has k o) eqn:Hhas.
  - now apply get_replace_eq.
  - destruct (arrayIndex k).
    + now apply get_insertIndex_eq.
    + rewrite get_app. unfold has in Hhas.
      destruct (get k o); [discriminate|]. simpl. now rewrite String.eqb_refl.
Qed.

(** The other properties are untouched. *)
Lemma get_set_ne k k' v o : k <> k' -> get k' (set k v o) = get k' o.
Proof.
  intros Hne. unfold set. destruct (has k o).
  - now apply get_replace_ne.
  - destruct (arrayIndex k).
    + now apply get_insertIndex_ne.
    + rewrite get_app. destruct (get k' o); [reflexivity|]. simpl.
      now destruct (String.eqb_spec k k').
Qed.

Lemma get_set k k' v o :
  get k' (set k v o) = if String.eqb k k' then Some v else get k' o.
Proof.
  destruct (String.eqb_spec k k') as [->|Hne].
  - apply get_set_eq.
  - now apply get_set_ne.
Qed.

Lemma has_In_keys k o : has k o = true <-> In k (keys o).
Proof.
  unfold has, keys. induction o as [|[k' v'] o IH]; simpl.
  - split; [discriminate|tauto].
  - destruct (String.eqb_spec k' k) as [->|Hne].
    + split; auto.
    + rewrite IH. split; [tauto|]. intros [H|H]; [contradiction|assumption].
Qed.

(** A new key that is not an array index goes last. *)
Lemma keys_set_new k v o :
  ~ In k (keys o) -> arrayIndex k = None -> keys (set k v o) = keys o ++ [k].
Proof.
  intros Hnew Hidx. unfold set.
  destruct (has k o) eqn:Hhas.
  - apply has_In_keys in Hhas. contradiction.
  - rewrite Hidx. unfold keys. now rewrite List.map_app.
Qed.

End Lookup.
End ObjFacts.

Example sample_allowed_area :
  fst (validateWorkItemTeamAccess (Sample.config (Some "Alpha, Beta"))
         Sample.connection "ProjectX" Sample.inAlphaArea Sample.fresh) = Ok tt.
Proof. vm_compute. reflexivity. Qed.

Example sample_allowed_board :
  validateWorkItemTeamAccess (Sample.config (Some "Alpha, Beta"))
    Sample.connection "ProjectX" Sample.onBetaBoard Sample.fresh
  = (Ok tt, mkState {[ "ProjectX" := [("beta", "id-beta")] ]} [CallGetTeams "ProjectX"]).
Proof. vm_compute. reflexivity. Qed.

Example parse_spaced : parseAllowedTeamBoards (Some " Team Alpha ,, Beta ,") = Some ["Team Alpha"; "Beta"].
Proof. reflexivity. Qed.

Example parse_commas_only : parseAllowedTeamBoards (Some " , ,") = Some [].
Proof. reflexivity. Qed.

Example parse_blank : parseAllowedTeamBoards (Some "   ") = None.
Proof. reflexivity. Qed.

Example extract_nested : extractTeamNameFromAreaPath "ProjectX\TeamAlpha\SubArea" "ProjectX" = Some "TeamAlpha".
Proof. reflexivity. Qed.

(** ** The monad's laws used below *)

Lemma bind_ok {A B} (m : M A) (k : A -> M B) st a st' :
  m st = (Ok a, st') -> bind m k st = k a st'.
Proof. unfold bind. now intros ->. Qed.

Lemma bind_err {A B} (m : M A) (k : A -> M B) st e st' :
  m st = (Err e, st') -> bind m k st = (Err e, st').
Proof. unfold bind. now intros ->. Qed.

Lemma bind_ret {A B} (a : A) (k : A -> M B) st : bind (ret a) k st = k a st.
Proof. reflexivity. Qed.

(** ** No allow-list, no board *)

Lemma NoBoards_configuredTeams config :
  NoBoards config ->
  configuredTeams (parseAllowedTeamBoards (allowedTeamBoards config)) = None.
Proof.
  intros [Habsent | raw Hraw Hblank | Hnone].
  - now rewrite Habsent.
  - rewrite Hraw. unfold parseAllowedTeamBoards. rewrite Hblank.
    now rewrite Bool.orb_true_r.
  - now rewrite Hnone.
Qed.

Lemma validateTeamBoardAccess_no_boards config connection projectId teamId st :
  NoBoards config ->
  validateTeamBoardAccess config connection projectId teamId st
  = (Err (AzureDevOpsValidationError noBoardsMessage), st).
Proof.
  intros H. unfold validateTeamBoardAccess.
  now rewrite (NoBoards_configuredTeams _ H).
Qed.

Lemma validateWorkItemTeamAccess_no_boards config connection projectId workItem st :
  NoBoards config ->
  validateWorkItemTeamAccess config connection projectId workItem st
  = (Err (AzureDevOpsValidationError noBoardsMessage), st).
Proof.
  intros H. unfold validateWorkItemTeamAccess.
  now rewrite (NoBoards_configuredTeams _ H).
Qed.

Lemma isTeamAllowed_no_boards config teamName :
  NoBoards config ->
  isTeamAllowed (parseAllowedTeamBoards (allowedTeamBoards config)) teamName = false.
Proof.
  intros H. apply NoBoards_configuredTeams in H.
  destruct (parseAllowedTeamBoards (allowedTeamBoards config)) as [[|]|];
    simpl in *; congruence.
Qed.

(** C1: with a configuration whose allow-list is absent, blank or empty after
    parsing, every request to the work-item tools (get, list, create, update,
    link, with any arguments) ends in the validation error "Board access is
    restricted", without one call to the service and so without data; the two
    validators deny likewise whatever work item or team they are given. *)
Theorem no_boards_every_operation_denied
  defaultProject connection request config st :
  NoBoards config ->
  handleWorkItemsRequest defaultProject connection request (Some config) st
  = (Err (AzureDevOpsValidationError noBoardsMessage), st)
  /\ (forall projectId workItem,
        validateWorkItemTeamAccess config connection projectId workItem st
        = (Err (AzureDevOpsValidationError noBoardsMessage), st))
  /\ (forall projectId teamId,
        validateTeamBoardAccess config connection projectId teamId st
        = (Err (AzureDevOpsValidationError noBoardsMessage), st)).
Proof.
  intros H. repeat split.
  - unfold handleWorkItemsRequest.
    apply bind_err. now apply validateTeamBoardAccess_no_boards.
  - intros. now apply validateWorkItemTeamAccess_no_boards.
  - intros. now apply validateTeamBoardAccess_no_boards.
Qed.

Lemma no_boards_every_operation_denied_witness :
  NoBoards (Sample.config (Some " , ,"))
  /\ handleWorkItemsRequest "ProjectX" Sample.connection
       (get_work_item (Some (mkGetArgs 1 None))) (Some (Sample.config (Some " , ,")))
       Sample.fresh
     = (Err (AzureDevOpsValidationError noBoardsMessage), Sample.fresh).
Proof.
  assert (H : NoBoards (Sample.config (Some " , ,"))).
  { apply boards_none_listed. reflexivity. }
  split; [exact H|].
  exact (proj1 (no_boards_every_operation_denied "ProjectX" Sample.connection
                  (get_work_item (Some (mkGetArgs 1 None)))
                  (Sample.config (Some " , ,")) Sample.fresh H)).
Defined.

(** ** Membership in the allow-list ignores letter case *)










Lemma toLowerChar_idempotent c : Js.toLowerChar (Js.toLowerChar c) = Js.toLowerChar c.
Proof. destruct c as [[] [] [] [] [] [] [] []]; reflexivity. Qed.

Lemma toLowerCase_idempotent s : Js.toLowerCase (Js.toLowerCase s) = Js.toLowerCase s.
Proof.
  induction s as [|c s IH]; simpl; [reflexivity|].
  now rewrite toLowerChar_idempotent, IH.
Qed.

Lemma caseVariant_refl s : caseVariant s s.
Proof. induction s; constructor; [now left | assumption]. Qed.





Example team_alpha_matches_lower_entry :
  isTeamAllowed (Some ["team alpha"]) "Team Alpha" = true.
Proof. reflexivity. Qed.

Example team_alpha_matches_among_entries :
  isTeamAllowed (parseAllowedTeamBoards (Some "Backend Team, TEAM ALPHA")) "team Alpha" = true.
Proof. reflexivity. Qed.

Example other_team_not_matched :
  isTeamAllowed (Some ["team alpha"]) "Team Alpha 2" = false.
Proof. reflexivity. Qed.



(** ** Resolving a team ID: cache hit and cache miss *)

Lemma getTeamNameById_hit connection projectId teamId st name :
  cachedTeamName (teamCache st) projectId teamId = Some name ->
  getTeamNameById connection projectId teamId st = (Ok (Some name), st).
Proof.
  intros Hhit. unfold getTeamNameById, bind, getCache. now rewrite Hhit.
Qed.

Lemma getTeamNameById_miss connection projectId teamId st :
  cachedTeamName (teamCache st) projectId teamId = None ->
  getTeamNameById connection projectId teamId st
  = match coreGetTeams connection projectId with
    | Ok teams =>
        match resolvedTeam teamId teams with
        | Some (name, id) =>
            (Ok (Some name),
             mkState (cacheTeam projectId (Js.toLowerCase name) id (teamCache st))
               (calls st ++ [CallGetTeams projectId]))
        | None => (Ok None, logged (CallGetTeams projectId) st)
        end
    | Err error =>
        (Err (AzureDevOpsValidationError
                ("Failed to get teams for project '" ++ projectId ++ "': "
                 ++ errorMessage error)),
         logged (CallGetTeams projectId) st)
    end.
Proof.
  intros Hmiss.
  unfold getTeamNameById, bind, getCache, getAllTeams, await, resolvedTeam, logged.
  rewrite Hmiss.
  destruct (coreGetTeams connection projectId) as [teams|error]; [|reflexivity].
  destruct (List.find (hasId teamId) teams) as [team|]; [|reflexivity].
  destruct (namedTeam team) as [[name id]|]; reflexivity.
Qed.

Lemma findNameOfId_In entries teamId name :
  In (name, teamId) entries -> exists name', findNameOfId entries teamId = Some name'.
Proof.
  unfold findNameOfId. induction entries as [|[n i] entries IH]; simpl; [tauto|].
  intros [Hhere | Hlater].
  - inversion Hhere; subst. rewrite String.eqb_refl. now exists name.
  - destruct (String.eqb i teamId); [now exists n | now apply IH].
Qed.

Lemma cachedId_cachedTeamName cache projectId teamId :
  cachedId cache projectId teamId ->
  exists name, cachedTeamName cache projectId teamId = Some name.
Proof.
  intros (byName & name & Hproject & Hentry).
  unfold cachedTeamName. rewrite Hproject.
  now apply findNameOfId_In with name.
Qed.

(** C6: a team ID that the cache holds for the project is resolved from the
    cache: the state, and with it the log of calls, is left as it was (no
    fetch), and two resolutions in a row return the same name. *)
Theorem cached_team_resolved_without_fetch connection projectId teamId st :
  cachedId (teamCache st) projectId teamId ->
  exists name,
    getTeamNameById connection projectId teamId st = (Ok (Some name), st)
    /\ (let! first := getTeamNameById connection projectId teamId in
        let! second := getTeamNameById connection projectId teamId in
        ret (first, second)) st
       = (Ok (Some name, Some name), st).
Proof.
  intros Hcached.
  destruct (cachedId_cachedTeamName _ _ _ Hcached) as [name Hname].
  pose proof (getTeamNameById_hit connection projectId teamId st name Hname) as Hrun.
  exists name. split; [exact Hrun|].
  rewrite (bind_ok _ _ _ _ _ Hrun).
  now rewrite (bind_ok _ _ _ _ _ Hrun).
Qed.

Lemma cached_team_resolved_without_fetch_witness :
  exists name,
    getTeamNameById Sample.connection "ProjectX" "id-beta"
      (mkState {[ "ProjectX" := [("alpha", "id-alpha"); ("beta", "id-beta")] ]} [])
    = (Ok (Some name),
       mkState {[ "ProjectX" := [("alpha", "id-alpha"); ("beta", "id-beta")] ]} []).
Proof.
  destruct (cached_team_resolved_without_fetch Sample.connection "ProjectX" "id-beta"
              (mkState {[ "ProjectX" := [("alpha", "id-alpha"); ("beta", "id-beta")] ]} []))
    as (name & Hrun & _).
  - exists [("alpha", "id-alpha"); ("beta", "id-beta")], "beta".
    split; [reflexivity|]. simpl. right; left; reflexivity.
  - now exists name.
Defined.

Example cached_name_is_the_lower_cased_key :
  fst (getTeamNameById Sample.connection "ProjectX" "id-beta"
         (mkState {[ "ProjectX" := [("alpha", "id-alpha"); ("beta", "id-beta")] ]} []))
  = Ok (Some "beta").
Proof. vm_compute. reflexivity. Qed.

Lemma cacheEntry_cacheTeam cache projectId name id q key :
  cacheEntry (cacheTeam projectId name id cache) q key
  = if String.eqb q projectId && String.eqb key name then Some id
    else cacheEntry cache q key.
Proof.
  unfold cacheEntry, cacheTeam.
  destruct (String.eqb_spec q projectId) as [->|Hq]; simpl.
  - rewrite lookup_insert_eq, ObjFacts.get_set.
    rewrite (String.eqb_sym key name).
    destruct (String.eqb name key); [reflexivity|].
    now destruct (cache !! projectId).
  - rewrite lookup_insert_ne by congruence. reflexivity.
Qed.




(** ** Area paths without a team segment *)

Lemma startsWith_longer (s : string) (c : ascii) :
  Js.startsWith s (s ++ String c "") = false.
Proof.
  unfold Js.startsWith. induction s as [|a s IH]; simpl; [reflexivity|].
  destruct (ascii_dec a a); [assumption|reflexivity].
Qed.

Lemma split_without_separator (sep : ascii) (s : string) :
  ~ In sep (list_ascii_of_string s) -> Js.split sep s = [s].
Proof.
  induction s as [|c s IH]; simpl; intros Hnot; [reflexivity|].
  destruct (Ascii.eqb_spec c sep) as [->|Hne]; [tauto|].
  rewrite IH by tauto. reflexivity.
Qed.

Lemma stringField_truthy workItem key s :
  stringField workItem key = Some s -> Js.truthy s = true.
Proof.
  unfold stringField. destruct (wi_fields workItem) as [fields|]; [|discriminate].
  destruct (fields !! key) as [[s'| |]|]; try discriminate.
  destruct (Js.truthy s') eqn:Htruthy; [|discriminate].
  now intros [= <-].
Qed.

(** A project name without a separator, given as the whole area path, comes
    back as the team name. *)
Lemma extractTeamNameFromAreaPath_project_alone projectId :
  Js.truthy projectId = true ->
  ~ In Js.backslash (list_ascii_of_string projectId) ->
  extractTeamNameFromAreaPath projectId projectId = Some projectId.
Proof.
  intros Htruthy Hnot. unfold extractTeamNameFromAreaPath.
  rewrite startsWith_longer, (split_without_separator _ _ Hnot).
  now rewrite Htruthy.
Qed.

Lemma configuredTeams_Some allowedTeams allowed :
  configuredTeams allowedTeams = Some allowed -> allowedTeams = Some allowed.
Proof.
  destruct allowedTeams as [[|team teams]|]; simpl; congruence.
Qed.

Lemma configuredTeams_cons allowedTeams allowed :
  configuredTeams allowedTeams = Some allowed ->
  exists team teams, allowed = team :: teams.
Proof.
  destruct allowedTeams as [[|team teams]|]; simpl; try discriminate.
  intros [= <-]. now exists team, teams.
Qed.

(** C2, what the code does instead: under an allow-list that names at least
    one team, for a work item without System.TeamId whose area path is the
    project name alone (a name without separator), the decomposition returns
    the project name as the team name, not null, and the decision is the one
    of the allow-list for that name: the item is let through when the project
    name is on the list, and is otherwise denied with the message of the
    allow-list mismatch.  The denial for an area path without a team name is
    never reached from such a path. *)
Theorem root_area_path_decided_by_allow_list
  config connection projectId workItem allowed st :
  configuredTeams (parseAllowedTeamBoards (allowedTeamBoards config)) = Some allowed ->
  getWorkItemTeamId workItem = None ->
  getWorkItemAreaPath workItem = Some projectId ->
  ~ In Js.backslash (list_ascii_of_string projectId) ->
  extractTeamNameFromAreaPath projectId projectId = Some projectId
  /\ validateWorkItemTeamAccess config connection projectId workItem st
     = (if isTeamAllowed (Some allowed) projectId then Ok tt
        else Err (AzureDevOpsValidationError
                    (itemDeniedMessage workItem projectId allowed)), st).
Proof.
  intros Hallowed HteamId Harea Hnot.
  pose proof (stringField_truthy _ _ _ Harea) as Htruthy.
  pose proof (extractTeamNameFromAreaPath_project_alone _ Htruthy Hnot) as Hextract.
  split; [exact Hextract|].
  unfold validateWorkItemTeamAccess.
  rewrite Hallowed, HteamId, Harea, Hextract.
  rewrite (configuredTeams_Some _ _ Hallowed).
  unfold present. rewrite Htruthy. unfold bind, ret, throw.
  now destruct (isTeamAllowed (Some allowed) projectId).
Qed.

Lemma root_area_path_decided_by_allow_list_witness :
  extractTeamNameFromAreaPath "ProjectX" "ProjectX" = Some "ProjectX"
  /\ validateWorkItemTeamAccess (Sample.config (Some "Alpha, ProjectX"))
       Sample.connection "ProjectX" Sample.inRootArea Sample.fresh
     = (Ok tt, Sample.fresh).
Proof.
  apply (root_area_path_decided_by_allow_list (Sample.config (Some "Alpha, ProjectX"))
           Sample.connection "ProjectX" Sample.inRootArea ["Alpha"; "ProjectX"]
           Sample.fresh eq_refl eq_refl eq_refl).
  vm_compute. intuition discriminate.
Defined.

Example area_path_with_trailing_separator :
  extractTeamNameFromAreaPath "ProjectX\" "ProjectX" = None
  /\ validateWorkItemTeamAccess (Sample.config (Some "Alpha")) Sample.connection
       "ProjectX" (Sample.item 5 [("System.AreaPath", JsStr "ProjectX\")]) Sample.fresh
     = (Err (AzureDevOpsValidationError
               (noTeamInAreaMessage (Sample.item 5 [("System.AreaPath", JsStr "ProjectX\")])
                  "ProjectX\")), Sample.fresh).
Proof. vm_compute. split; reflexivity. Qed.

(** C2 at the work item of the sample project whose area path is
    "ProjectX", and which has no System.TeamId: the decomposition
    returns "ProjectX", not null; the item is let through when "ProjectX" is
    on the allow-list, and is otherwise denied for not being on the list,
    with the message of the allow-list mismatch. *)
Lemma root_area_path_counterexample :
  getWorkItemTeamId Sample.inRootArea = None
  /\ getWorkItemAreaPath Sample.inRootArea = Some "ProjectX"
  /\ extractTeamNameFromAreaPath "ProjectX" "ProjectX" = Some "ProjectX"
  /\ validateWorkItemTeamAccess (Sample.config (Some "ProjectX")) Sample.connection
       "ProjectX" Sample.inRootArea Sample.fresh
     = (Ok tt, Sample.fresh)
  /\ validateWorkItemTeamAccess (Sample.config (Some "Alpha")) Sample.connection
       "ProjectX" Sample.inRootArea Sample.fresh
     = (Err (AzureDevOpsValidationError
               (itemDeniedMessage Sample.inRootArea "ProjectX" ["Alpha"])),
        Sample.fresh)
  /\ itemDeniedMessage Sample.inRootArea "ProjectX" ["Alpha"]
     = "Access denied. Work item #3 belongs to team board 'ProjectX' which is not in the allowed list. Allowed teams: Alpha. Please add 'ProjectX' to AZURE_DEVOPS_ALLOWED_TEAM_BOARDS if you need access.".
Proof.
  vm_compute. repeat split; reflexivity.
Qed.

(** ** The validators only read *)

Lemma readOnly_ret {A} (a : A) : readOnly (ret a).
Proof. now intros st. Qed.

Lemma readOnly_throw {A} (e : Error) : readOnly (@throw A e).
Proof. now intros st. Qed.

Lemma readOnly_bind {A B} (m : M A) (k : A -> M B) :
  readOnly m -> (forall a, readOnly (k a)) -> readOnly (bind m k).
Proof.
  intros Hm Hk st. unfold bind. specialize (Hm st).
  destruct (m st) as [[a|e] st']; simpl in *; [|assumption].
  now rewrite Hk.
Qed.

Lemma mutations_logged c st :
  mutations (logged c st) = mutations st ++ (if isMutation c then [c] else []).
Proof.
  unfold mutations, logged. simpl. now rewrite List.filter_app.
Qed.

Lemma readOnly_await {A} (c : Call) (answer : Result A) :
  isMutation c = false -> readOnly (await c answer).
Proof.
  intros Hc st. unfold await. simpl.
  change (mutations (logged c st) = mutations st).
  rewrite mutations_logged, Hc. apply List.app_nil_r.
Qed.

Create HintDb readonly.
#[local] Hint Resolve readOnly_ret readOnly_throw : readonly.

Lemma readOnly_getTeamNameById connection projectId teamId :
  readOnly (getTeamNameById connection projectId teamId).
Proof.
  intros st.
  destruct (cachedTeamName (teamCache st) projectId teamId) as [name|] eqn:Hcache.
  - now rewrite (getTeamNameById_hit _ _ _ _ _ Hcache).
  - rewrite (getTeamNameById_miss _ _ _ _ Hcache).
    destruct (coreGetTeams connection projectId) as [teams|error];
      [destruct (resolvedTeam teamId teams) as [[name id]|]|];
      simpl; unfold mutations; simpl; rewrite List.filter_app; apply List.app_nil_r.
Qed.

Lemma readOnly_validateWorkItemTeamAccess config connection projectId workItem :
  readOnly (validateWorkItemTeamAccess config connection projectId workItem).
Proof.
  unfold validateWorkItemTeamAccess.
  destruct (configuredTeams _) as [allowed|]; [|auto with readonly].
  apply readOnly_bind.
  - destruct (getWorkItemTeamId workItem) as [teamId|].
    + apply readOnly_bind; [apply readOnly_getTeamNameById|].
      intros name. destruct (present name); auto with readonly.
    + destruct (getWorkItemAreaPath workItem) as [areaPath|]; [|auto with readonly].
      destruct (present _); auto with readonly.
  - intros name. destruct (negb _); auto with readonly.
Qed.

Lemma readOnly_validateTeamBoardAccess config connection projectId teamId :
  readOnly (validateTeamBoardAccess config connection projectId teamId).
Proof.
  unfold validateTeamBoardAccess.
  destruct (configuredTeams _) as [allowed|]; [|auto with readonly].
  destruct (present teamId) as [id|]; [|auto with readonly].
  apply readOnly_bind; [apply readOnly_getTeamNameById|].
  intros name. destruct (present name); [|auto with readonly].
  destruct (negb _); auto with readonly.
Qed.

Lemma readOnly_fetchAndValidateWorkItem config connection projectId workItemId :
  readOnly (fetchAndValidateWorkItem config connection projectId workItemId).
Proof.
  unfold fetchAndValidateWorkItem.
  apply readOnly_bind; [now apply readOnly_await|].
  intros [workItem|]; [|auto with readonly].
  apply readOnly_bind; [apply readOnly_validateWorkItemTeamAccess|].
  auto with readonly.
Qed.

(** With boards configured, the check the router starts with lets every
    request through and touches nothing. *)
Lemma validateTeamBoardAccess_no_team config connection projectId allowed st :
  configuredTeams (parseAllowedTeamBoards (allowedTeamBoards config)) = Some allowed ->
  validateTeamBoardAccess config connection projectId None st = (Ok tt, st).
Proof.
  intros Hallowed. unfold validateTeamBoardAccess. now rewrite Hallowed.
Qed.

(** ** The router: creation, update and link *)

Section RouterFacts.

Variable defaultProject : string.
Variable connection : WebApi.
Variable config : AzureDevOpsConfig.
Variable allowed : list string.
Hypothesis boards :
  configuredTeams (parseAllowedTeamBoards (allowedTeamBoards config)) = Some allowed.

Lemma effectiveAreaPath_explicit projectId areaPath path st :
  present areaPath = Some path ->
  effectiveAreaPath (Some config) projectId areaPath st = (Ok areaPath, st).
Proof.
  intros Hpath. unfold effectiveAreaPath. now rewrite Hpath.
Qed.

Lemma effectiveAreaPath_missing projectId areaPath st :
  present areaPath = None ->
  effectiveAreaPath (Some config) projectId areaPath st
  = match allowed with
    | [team] => (Ok (Some (projectId ++ String Js.backslash "" ++ team)%string), st)
    | _ => (Err (AzureDevOpsValidationError (multipleBoardsMessage projectId allowed)), st)
    end.
Proof.
  intros Hpath. unfold effectiveAreaPath. rewrite Hpath.
  rewrite (configuredTeams_Some _ _ boards).
  destruct (configuredTeams_cons _ _ boards) as (team & teams & ->).
  now destruct teams.
Qed.

Lemma handle_create args st :
  handleWorkItemsRequest defaultProject connection (create_work_item (Some args))
    (Some config) st
  = let projectId := default defaultProject (c_projectId args) in
    match effectiveAreaPath (Some config) projectId (c_areaPath args) st with
    | (Ok areaPath, st') =>
        let options := mkCreateOptions (c_title args) areaPath (c_other args) in
        (respond TextOfWorkItem
           (createWorkItem connection projectId (c_workItemType args) options),
         logged (CallCreateWorkItem projectId (c_workItemType args) options) st')
    | (Err e, st') => (Err e, st')
    end.
Proof.
  unfold handleWorkItemsRequest.
  rewrite (bind_ok _ _ _ _ _ (validateTeamBoardAccess_no_team _ _ _ _ st boards)).
  unfold parsed. rewrite bind_ret. cbv beta zeta. unfold bind at 1.
  destruct (effectiveAreaPath _ _ _ st) as [[areaPath|e] st']; [|reflexivity].
  unfold bind, await, logged, respond, ret.
  now destruct (createWorkItem _ _ _ _).
Qed.

Lemma handle_update args st :
  handleWorkItemsRequest defaultProject connection (update_work_item (Some args))
    (Some config) st
  = match fetchAndValidateWorkItem config connection defaultProject
            (u_workItemId args) st with
    | (Ok _, st') =>
        let options := mkUpdateOptions (u_areaPath args) (u_other args) in
        (respond TextOfWorkItem (updateWorkItem connection (u_workItemId args) options),
         logged (CallUpdateWorkItem (u_workItemId args) options) st')
    | (Err e, st') => (Err e, st')
    end.
Proof.
  unfold handleWorkItemsRequest.
  rewrite (bind_ok _ _ _ _ _ (validateTeamBoardAccess_no_team _ _ _ _ st boards)).
  unfold parsed. rewrite bind_ret. cbv beta zeta.
  unfold bind at 1. unfold bind at 1.
  destruct (fetchAndValidateWorkItem _ _ _ _ st) as [[workItem|e] st']; [|reflexivity].
  unfold bind, await, logged, respond, ret.
  now destruct (updateWorkItem _ _ _).
Qed.

Lemma handle_link args st :
  handleWorkItemsRequest defaultProject connection (manage_work_item_link (Some args))
    (Some config) st
  = let projectId := default defaultProject (k_projectId args) in
    let options :=
      mkLinkOptions (k_sourceWorkItemId args) (k_targetWorkItemId args)
        (k_operation args) (k_relationType args) (k_other args) in
    match fetchAndValidateWorkItem config connection projectId
            (k_sourceWorkItemId args) st with
    | (Ok _, st1) =>
        match fetchAndValidateWorkItem config connection projectId
                (k_targetWorkItemId args) st1 with
        | (Ok _, st2) =>
            (respond TextOfWorkItem (manageWorkItemLink connection projectId options),
             logged (CallManageWorkItemLink projectId options) st2)
        | (Err e, st2) => (Err e, st2)
        end
    | (Err e, st1) => (Err e, st1)
    end.
Proof.
  unfold handleWorkItemsRequest.
  rewrite (bind_ok _ _ _ _ _ (validateTeamBoardAccess_no_team _ _ _ _ st boards)).
  unfold parsed. rewrite bind_ret. cbv beta zeta.
  unfold bind at 1. unfold bind at 1.
  destruct (fetchAndValidateWorkItem _ _ _ _ st) as [[source|e] st1]; [|reflexivity].
  unfold bind at 1.
  destruct (fetchAndValidateWorkItem _ _ _ _ st1) as [[target|e] st2]; [|reflexivity].
  unfold bind, await, logged, respond, ret.
  now destruct (manageWorkItemLink _ _ _).
Qed.

End RouterFacts.

(** C9: under a configuration with an allow-list, a create request without
    an area path is given the area path "<project>\<team>" of the one allowed
    team and then passed to [createWorkItem]; with two or more allowed teams
    it ends in the validation error "Multiple team boards are configured",
    the state, and so the log of calls, being as before: [createWorkItem] is
    not called. *)
Theorem create_without_area_path
  defaultProject connection config allowed args st :
  configuredTeams (parseAllowedTeamBoards (allowedTeamBoards config)) = Some allowed ->
  present (c_areaPath args) = None ->
  handleWorkItemsRequest defaultProject connection (create_work_item (Some args))
    (Some config) st
  = let projectId := default defaultProject (c_projectId args) in
    match allowed with
    | [team] =>
        let options :=
          mkCreateOptions (c_title args)
            (Some (projectId ++ String Js.backslash "" ++ team)%string) (c_other args) in
        (respond TextOfWorkItem
           (createWorkItem connection projectId (c_workItemType args) options),
         logged (CallCreateWorkItem projectId (c_workItemType args) options) st)
    | _ =>
        (Err (AzureDevOpsValidationError (multipleBoardsMessage projectId allowed)), st)
    end.
Proof.
  intros boards Hpath.
  rewrite (handle_create _ _ _ _ boards). cbv zeta.
  rewrite (effectiveAreaPath_missing _ _ boards _ _ _ Hpath).
  now destruct allowed as [|team [|team' teams]].
Qed.

Lemma create_without_area_path_witness :
  handleWorkItemsRequest "ProjectX" Sample.connection
    (create_work_item (Some (mkCreateArgs None "Task" "Write the report" None [])))
    (Some (Sample.config (Some "Alpha"))) Sample.fresh
  = (Ok (TextOfWorkItem Sample.touched),
     mkState ∅
       [CallCreateWorkItem "ProjectX" "Task"
          (mkCreateOptions "Write the report" (Some "ProjectX\Alpha") [])])
  /\ handleWorkItemsRequest "ProjectX" Sample.connection
       (create_work_item (Some (mkCreateArgs None "Task" "Write the report" (Some "") [])))
       (Some (Sample.config (Some "Alpha, Beta"))) Sample.fresh
     = (Err (AzureDevOpsValidationError
               (multipleBoardsMessage "ProjectX" ["Alpha"; "Beta"])), Sample.fresh).
Proof.
  split.
  - exact (create_without_area_path "ProjectX" Sample.connection
             (Sample.config (Some "Alpha")) ["Alpha"]
             (mkCreateArgs None "Task" "Write the report" None []) Sample.fresh
             eq_refl eq_refl).
  - exact (create_without_area_path "ProjectX" Sample.connection
             (Sample.config (Some "Alpha, Beta")) ["Alpha"; "Beta"]
             (mkCreateArgs None "Task" "Write the report" (Some "") []) Sample.fresh
             eq_refl eq_refl).
Defined.

Example ambiguous_creation_message :
  multipleBoardsMessage "ProjectX" ["Alpha"; "Beta"]
  = "Multiple team boards are configured (Alpha, Beta). Please specify the areaPath parameter to indicate which team's area to create the work item in. Example: areaPath: 'ProjectX\Alpha'".
Proof. reflexivity. Qed.

(** C3: under a configuration with an allow-list, a create request that names
    an area path is passed to [createWorkItem] with that path, whatever team
    the path names and without any call that would look the team up; an
    update request is decided by [fetchAndValidateWorkItem] on the work item
    as it is stored, and on success the new area path of the request,
    whatever it is, is passed to [updateWorkItem]. *)
Theorem explicit_area_path_is_not_checked
  defaultProject connection config allowed created updated path st :
  configuredTeams (parseAllowedTeamBoards (allowedTeamBoards config)) = Some allowed ->
  present (c_areaPath created) = Some path ->
  handleWorkItemsRequest defaultProject connection (create_work_item (Some created))
    (Some config) st
  = (let projectId := default defaultProject (c_projectId created) in
     let options := mkCreateOptions (c_title created) (Some path) (c_other created) in
     (respond TextOfWorkItem
        (createWorkItem connection projectId (c_workItemType created) options),
      logged (CallCreateWorkItem projectId (c_workItemType created) options) st))
  /\ handleWorkItemsRequest defaultProject connection (update_work_item (Some updated))
       (Some config) st
     = match fetchAndValidateWorkItem config connection defaultProject
               (u_workItemId updated) st with
       | (Ok _, st') =>
           let options := mkUpdateOptions (u_areaPath updated) (u_other updated) in
           (respond TextOfWorkItem
              (updateWorkItem connection (u_workItemId updated) options),
            logged (CallUpdateWorkItem (u_workItemId updated) options) st')
       | (Err e, st') => (Err e, st')
       end.
Proof.
  intros boards Hpath. split.
  - rewrite (handle_create _ _ _ _ boards). cbv zeta.
    rewrite (effectiveAreaPath_explicit _ _ _ _ _ Hpath).
    replace (c_areaPath created) with (Some path); [reflexivity|].
    unfold present in Hpath. destruct (c_areaPath created) as [p|]; [|discriminate].
    destruct (Js.truthy p); congruence.
  - apply (handle_update _ _ _ _ boards).
Qed.

Lemma explicit_area_path_is_not_checked_witness :
  handleWorkItemsRequest "ProjectX" Sample.connection
    (create_work_item
       (Some (mkCreateArgs None "Task" "Write the report" (Some "ProjectX\Gamma") [])))
    (Some (Sample.config (Some "Alpha"))) Sample.fresh
  = (Ok (TextOfWorkItem Sample.touched),
     mkState ∅
       [CallCreateWorkItem "ProjectX" "Task"
          (mkCreateOptions "Write the report" (Some "ProjectX\Gamma") [])])
  /\ handleWorkItemsRequest "ProjectX" Sample.connection
       (update_work_item (Some (mkUpdateArgs 1 (Some "ProjectX\Gamma") [])))
       (Some (Sample.config (Some "Alpha"))) Sample.fresh
     = (Ok (TextOfWorkItem Sample.touched),
        mkState ∅
          [CallWitGetWorkItem 1;
           CallUpdateWorkItem 1 (mkUpdateOptions (Some "ProjectX\Gamma") [])]).
Proof.
  exact (explicit_area_path_is_not_checked "ProjectX" Sample.connection
           (Sample.config (Some "Alpha")) ["Alpha"]
           (mkCreateArgs None "Task" "Write the report" (Some "ProjectX\Gamma") [])
           (mkUpdateArgs 1 (Some "ProjectX\Gamma") [])
           "ProjectX\Gamma" Sample.fresh eq_refl eq_refl).
Defined.

Example update_of_a_foreign_item_denied :
  handleWorkItemsRequest "ProjectX" Sample.connection
    (update_work_item (Some (mkUpdateArgs 4 (Some "ProjectX\Alpha") [])))
    (Some (Sample.config (Some "Alpha"))) Sample.fresh
  = (Err (AzureDevOpsValidationError (itemDeniedMessage Sample.inGammaArea "Gamma" ["Alpha"])),
     mkState ∅ [CallWitGetWorkItem 4]).
Proof. vm_compute. reflexivity. Qed.

(** ** Links: both ends are validated first *)

Lemma validateTeamBoardAccess_unconfigured config connection projectId teamId st :
  configuredTeams (parseAllowedTeamBoards (allowedTeamBoards config)) = None ->
  validateTeamBoardAccess config connection projectId teamId st
  = (Err (AzureDevOpsValidationError noBoardsMessage), st).
Proof.
  intros Hnone. unfold validateTeamBoardAccess. now rewrite Hnone.
Qed.

(** C4: under a present configuration a link request ends in one of two
    ways.  Either it raises, the opening check or the validation of the
    source or of the target having raised, and then no call that changes work
    items has been made.  Or the source and then the target have been fetched
    and validated, nothing having been changed meanwhile, and only then is
    [manageWorkItemLink] called. *)
Theorem link_validates_both_endpoints_first
  defaultProject connection config args st :
  let projectId := default defaultProject (k_projectId args) in
  let options :=
    mkLinkOptions (k_sourceWorkItemId args) (k_targetWorkItemId args)
      (k_operation args) (k_relationType args) (k_other args) in
  let validate := fetchAndValidateWorkItem config connection projectId in
  let '(outcome, st') :=
    handleWorkItemsRequest defaultProject connection
      (manage_work_item_link (Some args)) (Some config) st in
  (exists e,
     outcome = Err e
     /\ mutations st' = mutations st
     /\ (validateTeamBoardAccess config connection defaultProject None st = (Err e, st')
         \/ validate (k_sourceWorkItemId args) st = (Err e, st')
         \/ exists source st1,
              validate (k_sourceWorkItemId args) st = (Ok source, st1)
              /\ validate (k_targetWorkItemId args) st1 = (Err e, st')))
  \/ (exists source st1 target st2,
        validate (k_sourceWorkItemId args) st = (Ok source, st1)
        /\ validate (k_targetWorkItemId args) st1 = (Ok target, st2)
        /\ mutations st2 = mutations st
        /\ st' = logged (CallManageWorkItemLink projectId options) st2
        /\ outcome = respond TextOfWorkItem
                       (manageWorkItemLink connection projectId options)).
Proof.
  intros projectId options validate.
  destruct (configuredTeams (parseAllowedTeamBoards (allowedTeamBoards config)))
    as [allowed|] eqn:boards.
  - rewrite (handle_link _ _ _ _ boards). cbv zeta.
    fold projectId. fold options. fold validate.
    pose proof (readOnly_fetchAndValidateWorkItem config connection projectId
                  (k_sourceWorkItemId args) st) as Hsource.
    fold validate in Hsource.
    destruct (validate (k_sourceWorkItemId args) st) as [[source|e] st1] eqn:Hrun1;
      cbn [snd] in Hsource.
    + pose proof (readOnly_fetchAndValidateWorkItem config connection projectId
                    (k_targetWorkItemId args) st1) as Htarget.
      fold validate in Htarget.
      destruct (validate (k_targetWorkItemId args) st1) as [[target|e] st2] eqn:Hrun2;
        cbn [snd] in Htarget.
      * right. exists source, st1, target, st2.
        split; [reflexivity|]. split; [exact Hrun2|].
        split; [congruence|]. split; reflexivity.
      * left. exists e. split; [reflexivity|]. split; [congruence|].
        right; right. now exists source, st1.
    + left. exists e. split; [reflexivity|]. split; [assumption|].
      right; now left.
  - pose proof (validateTeamBoardAccess_unconfigured config connection defaultProject
                  None st boards) as Hopening.
    unfold handleWorkItemsRequest. rewrite (bind_err _ _ _ _ _ Hopening).
    left. eexists. split; [reflexivity|]. split; [reflexivity|]. now left.
Qed.

Example link_to_a_foreign_item_denied :
  handleWorkItemsRequest "ProjectX" Sample.connection
    (manage_work_item_link
       (Some (mkLinkArgs None 1 4 "add" "System.LinkTypes.Hierarchy-Forward" [])))
    (Some (Sample.config (Some "Alpha"))) Sample.fresh
  = (Err (AzureDevOpsValidationError (itemDeniedMessage Sample.inGammaArea "Gamma" ["Alpha"])),
     mkState ∅ [CallWitGetWorkItem 1; CallWitGetWorkItem 4]).
Proof. vm_compute. reflexivity. Qed.

Example link_between_allowed_items :
  handleWorkItemsRequest "ProjectX" Sample.connection
    (manage_work_item_link
       (Some (mkLinkArgs None 1 2 "add" "System.LinkTypes.Hierarchy-Forward" [])))
    (Some (Sample.config (Some "Alpha, Beta"))) Sample.fresh
  = (Ok (TextOfWorkItem Sample.touched),
     mkState {[ "ProjectX" := [("beta", "id-beta")] ]}
       [CallWitGetWorkItem 1; CallWitGetWorkItem 2; CallGetTeams "ProjectX";
        CallManageWorkItemLink "ProjectX"
          (mkLinkOptions 1 2 "add" "System.LinkTypes.Hierarchy-Forward" [])]).
Proof. vm_compute. reflexivity. Qed.

(** ** Resolving the allowed names against the team list *)

Lemma recordTeam_namedTeam projectId acc team :
  recordTeam projectId acc team
  = match namedTeam team with
    | Some (name, id) =>
        (Obj.set (Js.toLowerCase name) id (fst acc),
         cacheTeam projectId (Js.toLowerCase name) id (snd acc))
    | None => acc
    end.
Proof.
  unfold recordTeam, namedTeam.
  destruct (team_name team) as [name|], (team_id team) as [id|]; try reflexivity.
  now destruct (Js.truthy name && Js.truthy id).
Qed.

Lemma namedTeam_truthy team name id :
  namedTeam team = Some (name, id) -> Js.truthy name = true /\ Js.truthy id = true.
Proof.
  unfold namedTeam.
  destruct (team_name team) as [n|], (team_id team) as [i|]; try discriminate.
  destruct (Js.truthy n) eqn:Hn, (Js.truthy i) eqn:Hi; simpl; try discriminate.
  now intros [= <- <-].
Qed.


(** What the first loop leaves in [teamMap]. *)
Lemma get_recorded projectId teams teamName acc :
  Obj.get (Js.toLowerCase teamName)
    (fst (List.fold_left (recordTeam projectId) teams acc))
  = match matchingTeamId teams teamName with
    | Some id => Some id
    | None => Obj.get (Js.toLowerCase teamName) (fst acc)
    end.
Proof.
  revert acc. induction teams as [|team rest IH]; intros acc; simpl; [reflexivity|].
  rewrite IH. destruct (matchingTeamId rest teamName) as [found|]; [reflexivity|].
  rewrite recordTeam_namedTeam.
  destruct (namedTeam team) as [[name id]|] eqn:Hnamed; [|reflexivity].
  simpl. rewrite ObjFacts.get_set.
  now destruct (String.eqb (Js.toLowerCase name) (Js.toLowerCase teamName)).
Qed.

Lemma matchingTeamId_truthy teams teamName id :
  matchingTeamId teams teamName = Some id -> Js.truthy id = true.
Proof.
  induction teams as [|team rest IH]; simpl; [discriminate|].
  destruct (matchingTeamId rest teamName) as [found|]; [exact IH|].
  destruct (namedTeam team) as [[name i]|] eqn:Hnamed; [|discriminate].
  destruct (String.eqb _ _); [|discriminate].
  intros [= <-]. now apply (namedTeam_truthy _ _ _ Hnamed).
Qed.

Lemma lookupTeamId_teamMap projectId teams teamName cache :
  lookupTeamId (fst (List.fold_left (recordTeam projectId) teams (Obj.empty, cache))) teamName
  = foundUnder teams teamName.
Proof.
  unfold lookupTeamId, foundUnder, Obj.read. cbv zeta.
  destruct (String.eqb (Js.toLowerCase teamName) "__proto__"); [reflexivity|].
  rewrite get_recorded. simpl Obj.get.
  destruct (matchingTeamId teams teamName) as [id|] eqn:Hmatch.
  - now rewrite (matchingTeamId_truthy _ _ _ Hmatch).
  - now destruct (Obj.inherits (Js.toLowerCase teamName)).
Qed.

(** Of the inherited properties, two have a lower-case name. *)
Lemma inheritedName_lower name :
  inheritedName name = true ->
  Js.toLowerCase name = "constructor" \/ Js.toLowerCase name = "__proto__".
Proof.
  unfold inheritedName, Obj.inherits. intros Hin.
  apply List.existsb_exists in Hin as (key & Hkey & Heq).
  apply String.eqb_eq in Heq.
  pose proof (toLowerCase_idempotent name) as Hlower. rewrite Heq in Hlower.
  simpl in Hkey.
  repeat (destruct Hkey as [<-|Hkey];
          [first [ now left | now right | vm_compute in Hlower; discriminate ]|]).
  destruct Hkey.
Qed.

Lemma inheritedName_proto name :
  Js.toLowerCase name = "__proto__" -> inheritedName name = true.
Proof. unfold inheritedName. now intros ->. Qed.

Lemma foundUnder_None teams name :
  foundUnder teams name = None
  <-> matchingTeamId teams name = None /\ inheritedName name = false.
Proof.
  unfold foundUnder. cbv zeta.
  change (Obj.inherits (Js.toLowerCase name)) with (inheritedName name).
  destruct (String.eqb_spec (Js.toLowerCase name) "__proto__") as [Hproto|_].
  - split; [discriminate|]. intros [_ Hown].
    rewrite (inheritedName_proto _ Hproto) in Hown. discriminate.
  - destruct (matchingTeamId teams name); [split; [discriminate | now intros [? _]]|].
    destruct (inheritedName name); split; try discriminate; try tauto.
    now intros [_ ?].
Qed.

Lemma foundUnder_team teams name :
  inheritedName name = false ->
  foundUnder teams name = TeamId <$> matchingTeamId teams name.
Proof.
  intros Hown. unfold foundUnder. cbv zeta.
  change (Obj.inherits (Js.toLowerCase name)) with (inheritedName name). rewrite Hown.
  destruct (String.eqb_spec (Js.toLowerCase name) "__proto__") as [Hproto|_].
  - rewrite (inheritedName_proto _ Hproto) in Hown. discriminate.
  - now destruct (matchingTeamId teams name).
Qed.

Lemma get_assign {A} key key' (v : A) (o : Obj.obj A) :
  Obj.get key' (Obj.assign key v o)
  = if String.eqb key "__proto__" then Obj.get key' o
    else if String.eqb key key' then Some v else Obj.get key' o.
Proof.
  unfold Obj.assign. destruct (String.eqb key "__proto__"); [reflexivity|].
  apply ObjFacts.get_set.
Qed.

(** What the second loop collects. *)
Section SecondLoop.

Variable teamMap : Obj.obj string.

Lemma notFound_resolved names acc :
  snd (List.fold_left (resolveName teamMap) names acc)
  = snd acc ++ List.filter (fun name => match lookupTeamId teamMap name with
                                        | Some _ => false
                                        | None => true
                                        end) names.
Proof.
  revert acc. induction names as [|name names IH]; intros acc; simpl.
  - now rewrite List.app_nil_r.
  - rewrite IH. unfold resolveName.
    destruct (lookupTeamId teamMap name); simpl; [reflexivity|].
    now rewrite <- List.app_assoc.
Qed.

Lemma result_resolved names acc key :
  Obj.get key (fst (List.fold_left (resolveName teamMap) names acc))
  = match (if List.existsb (String.eqb key) names && negb (String.eqb key "__proto__")
           then lookupTeamId teamMap key else None) with
    | Some found => Some (mkTeamRef found)
    | None => Obj.get key (fst acc)
    end.
Proof.
  revert acc. induction names as [|name names IH]; intros acc; simpl; [reflexivity|].
  rewrite IH.
  assert (Hstep : Obj.get key (fst (resolveName teamMap acc name))
                  = match (if String.eqb key name && negb (String.eqb key "__proto__")
                           then lookupTeamId teamMap key else None) with
                    | Some found => Some (mkTeamRef found)
                    | None => Obj.get key (fst acc)
                    end).
  { unfold resolveName.
    destruct (String.eqb_spec key name) as [->|Hne]; simpl.
    - destruct (lookupTeamId teamMap name) as [found|]; simpl.
      + rewrite get_assign, String.eqb_refl. now destruct (String.eqb name "__proto__").
      + now destruct (negb _).
    - destruct (lookupTeamId teamMap name) as [found|]; simpl; [|reflexivity].
      rewrite get_assign. destruct (String.eqb name "__proto__"); [reflexivity|].
      destruct (String.eqb_spec name key); [congruence|reflexivity]. }
  rewrite Hstep.
  destruct (String.eqb key name), (List.existsb (String.eqb key) names),
    (negb (String.eqb key "__proto__")), (lookupTeamId teamMap key); reflexivity.
Qed.

(** Distinct names that all resolve, none an array index and none
    "__proto__", become the keys of the result in the order they were
    requested. *)
Lemma keys_resolved names acc :
  NoDup names ->
  Forall (fun name => Obj.arrayIndex name = None) names ->
  Forall (fun name => lookupTeamId teamMap name <> None) names ->
  ~ In "__proto__" names ->
  (forall name, In name names -> ~ In name (Obj.keys (fst acc))) ->
  Obj.keys (fst (List.fold_left (resolveName teamMap) names acc))
  = Obj.keys (fst acc) ++ names.
Proof.
  revert acc.
  induction names as [|name names IH]; intros acc Hnodup Hidx Hres Hproto Hfresh; simpl.
  - now rewrite List.app_nil_r.
  - inversion Hnodup as [|? ? Hnotin Hnodup']; subst.
    inversion Hidx as [|? ? Hidx0 Hidx']; subst.
    inversion Hres as [|? ? Hres0 Hres']; subst.
    assert (Hkeys : Obj.keys (fst (resolveName teamMap acc name))
                    = Obj.keys (fst acc) ++ [name]).
    { unfold resolveName. destruct (lookupTeamId teamMap name) as [id|]; [|congruence].
      simpl. unfold Obj.assign.
      destruct (String.eqb_spec name "__proto__") as [->|_];
        [exfalso; apply Hproto; now left|].
      apply ObjFacts.keys_set_new; [|assumption].
      apply Hfresh. now left. }
    rewrite IH; trivial.
    + rewrite Hkeys. now rewrite <- List.app_assoc.
    + intros Hin. apply Hproto. now right.
    + intros other Hin. rewrite Hkeys. rewrite List.in_app_iff.
      intros [Hold | [<- | []]].
      * apply (Hfresh other); [now right | assumption].
      * apply Hnotin. now apply list_elem_of_In.
Qed.

End SecondLoop.

Lemma getAllowedTeamIds_run connection projectId names teams st :
  coreGetTeams connection projectId = Ok teams ->
  getAllowedTeamIds connection projectId names st
  = let recorded :=
      List.fold_left (recordTeam projectId) teams (Obj.empty, teamCache st) in
    let resolved :=
      List.fold_left (resolveName (fst recorded)) names (Obj.empty, []) in
    (if (0 <? List.length (snd resolved))%nat
     then Err (AzureDevOpsValidationError
                 (notFoundMessage projectId (snd resolved) teams))
     else Ok (fst resolved),
     mkState (snd recorded) (calls st ++ [CallGetTeams projectId])).
Proof.
  intros Hteams. unfold getAllowedTeamIds, bind, await, getCache, putCache.
  rewrite Hteams. cbv zeta. simpl teamCache.
  destruct (List.fold_left (recordTeam projectId) teams _) as [teamMap cache'].
  simpl fst. simpl snd.
  destruct (List.fold_left (resolveName teamMap) names _) as [result notFound].
  simpl fst. simpl snd.
  now destruct (0 <? List.length notFound)%nat.
Qed.

Lemma reported_name teams name :
  match foundUnder teams name with Some _ => false | None => true end
  = match matchingTeamId teams name with Some _ => false | None => true end
    && negb (inheritedName name).
Proof.
  destruct (foundUnder teams name) as [found|] eqn:Hfound.
  - destruct (matchingTeamId teams name) as [id|] eqn:Hmatch; [reflexivity|].
    destruct (inheritedName name) eqn:Hinherited; [reflexivity|].
    exfalso. assert (Hnone : foundUnder teams name = None) by now apply foundUnder_None.
    congruence.
  - apply foundUnder_None in Hfound as [-> ->]. reflexivity.
Qed.

Lemma filter_twice {A} (f g : A -> bool) (l : list A) :
  List.filter f (List.filter g l) = List.filter (fun x => g x && f x) l.
Proof.
  induction l as [|x l IH]; [reflexivity|]. cbn [List.filter].
  destruct (g x); cbn [List.filter andb]; [|exact IH].
  destruct (f x); now rewrite IH.
Qed.

Lemma notFound_reported projectId teams names cache :
  snd (List.fold_left
         (resolveName (fst (List.fold_left (recordTeam projectId) teams (Obj.empty, cache))))
         names (Obj.empty, []))
  = notFoundNames teams names.
Proof.
  rewrite notFound_resolved. cbn [snd app]. unfold notFoundNames, unmatchedNames.
  rewrite filter_twice. apply List.filter_ext. intros name.
  rewrite lookupTeamId_teamMap. apply reported_name.
Qed.

Lemma unmatchedNames_nil teams names :
  unmatchedNames teams names = [] ->
  forall name, In name names -> exists id, matchingTeamId teams name = Some id.
Proof.
  unfold unmatchedNames. induction names as [|n names IH]; simpl; [tauto|].
  destruct (matchingTeamId teams n) as [id|] eqn:Hn; [|discriminate].
  intros Hrest name [<-|Hin]; [now exists id | now apply IH].
Qed.

Lemma notFoundNames_own teams names :
  Forall (fun name => inheritedName name = false) names ->
  notFoundNames teams names = unmatchedNames teams names.
Proof.
  intros Hown. unfold notFoundNames.
  apply List.forallb_filter_id, List.forallb_forall. intros name Hin.
  unfold unmatchedNames in Hin. apply List.filter_In in Hin as [Hin _].
  rewrite List.Forall_forall in Hown. now rewrite (Hown name Hin).
Qed.

Lemma existsb_eqb_In (key : string) names :
  In key names -> List.existsb (String.eqb key) names = true.
Proof.
  intros Hin. apply List.existsb_exists. exists key.
  split; [assumption | apply String.eqb_refl].
Qed.

Lemma availableTeams_listed teams : availableTeams teams = List.map listedName teams.
Proof.
  unfold availableTeams. induction teams as [|team teams IH]; [reflexivity|].
  simpl. rewrite IH. unfold listedName.
  now destruct (team_name team) as [[|c rest]|].
Qed.

Lemma notFoundMessage_text projectId notFound teams :
  notFoundMessage projectId notFound teams = notFoundText projectId notFound teams.
Proof.
  unfold notFoundMessage, notFoundText, Js.join.
  now rewrite availableTeams_listed.
Qed.

(** C10 at the allow-list "constructor", in the sample project, which has no
    team of that name: the lookup in [teamMap] finds what every object
    inherits under "constructor", so the name is not reported and the map
    returned holds that value instead of a team ID; requested among names
    without a match, "Constructor" is left out of the message. *)
Lemma getAllowedTeamIds_inherited_name_passes :
  matchingTeamId Sample.teams "constructor" = None
  /\ fst (getAllowedTeamIds Sample.connection "ProjectX" ["constructor"] Sample.fresh)
     = Ok [("constructor", mkTeamRef (InheritedValue "constructor"))]
  /\ fst (getAllowedTeamIds Sample.connection "ProjectX"
            ["Delta"; "Constructor"; "Omega"] Sample.fresh)
     = Err (AzureDevOpsValidationError
              "The following team boards are not found in project 'ProjectX': Delta, Omega. Available teams: Alpha, Beta, Gamma. Please check AZURE_DEVOPS_ALLOWED_TEAM_BOARDS configuration.").
Proof. vm_compute. repeat split; reflexivity. Qed.

Example unmatched_names_message :
  notFoundMessage "ProjectX" ["Delta"; "Omega"] Sample.teams
  = "The following team boards are not found in project 'ProjectX': Delta, Omega. Available teams: Alpha, Beta, Gamma. Please check AZURE_DEVOPS_ALLOWED_TEAM_BOARDS configuration.".
Proof. reflexivity. Qed.

Example all_names_matched :
  getAllowedTeamIds Sample.connection "ProjectX" ["beta"; "Alpha"] Sample.fresh
  = (Ok [("beta", mkTeamRef (TeamId "id-beta")); ("Alpha", mkTeamRef (TeamId "id-alpha"))],
     mkState {[ "ProjectX" := [("alpha", "id-alpha"); ("beta", "id-beta");
                               ("gamma", "id-gamma")] ]}
       [CallGetTeams "ProjectX"]).
Proof. vm_compute. reflexivity. Qed.

Example proto_name_leaves_no_key :
  fst (getAllowedTeamIds Sample.connection "ProjectX" ["Alpha"; "__proto__"] Sample.fresh)
  = Ok [("Alpha", mkTeamRef (TeamId "id-alpha"))].
Proof. vm_compute. reflexivity. Qed.

(** ** Listing without a team: the query over the allowed teams *)

Lemma append_assoc (s1 s2 s3 : string) :
  ((s1 ++ s2) ++ s3 = s1 ++ (s2 ++ s3))%string.
Proof.
  induction s1 as [|c s1 IH]; [reflexivity|].
  change (String c ((s1 ++ s2) ++ s3) = String c (s1 ++ s2 ++ s3))%string.
  now rewrite IH.
Qed.

Lemma unmatchedNames_nil_lookup projectId teams names cache :
  unmatchedNames teams names = [] ->
  Forall (fun name =>
            lookupTeamId
              (fst (List.fold_left (recordTeam projectId) teams (Obj.empty, cache)))
              name <> None) names.
Proof.
  intros Hnone. apply List.Forall_forall. intros name Hin.
  rewrite lookupTeamId_teamMap. unfold foundUnder. cbv zeta.
  destruct (unmatchedNames_nil _ _ Hnone name Hin) as [id ->].
  now destruct (String.eqb (Js.toLowerCase name) "__proto__").
Qed.

(** The request that reaches [listWorkItems] when no team is named: the
    query has one clause for each allowed name, in the order of the keys of
    the map of allowed teams, which is the order of the allow-list. *)
Lemma handle_list_scoped defaultProject connection config allowed args teams st :
  configuredTeams (parseAllowedTeamBoards (allowedTeamBoards config)) = Some allowed ->
  present (l_teamId args) = None ->
  coreGetTeams connection (default defaultProject (l_projectId args)) = Ok teams ->
  unmatchedNames teams allowed = [] ->
  NoDup allowed ->
  Forall (fun name => Obj.arrayIndex name = None) allowed ->
  ~ In "__proto__" allowed ->
  handleWorkItemsRequest defaultProject connection (list_work_items (Some args))
    (Some config) st
  = let projectId := default defaultProject (l_projectId args) in
    let scoped :=
      mkListOptions projectId None None (Some (allowedTeamsWiql projectId allowed))
        (l_top args) (l_skip args) in
    (respond TextOfWorkItems (listWorkItems connection scoped),
     logged (CallListWorkItems scoped)
       (mkState
          (snd (List.fold_left (recordTeam projectId) teams (Obj.empty, teamCache st)))
          (calls st ++ [CallGetTeams projectId]))).
Proof.
  intros boards Hteam Hteams Hnone Hnodup Hidx Hproto.
  unfold handleWorkItemsRequest.
  rewrite (bind_ok _ _ _ _ _ (validateTeamBoardAccess_no_team _ _ _ _ st boards)).
  unfold parsed. rewrite bind_ret. cbv beta zeta.
  rewrite boards, Hteam.
  unfold bind at 1.
  rewrite (getAllowedTeamIds_run _ _ _ _ _ Hteams). cbv zeta.
  rewrite notFound_reported. unfold notFoundNames. rewrite Hnone.
  change (0 <? List.length (List.filter _ (@nil string)))%nat with false.
  cbv iota beta.
  rewrite keys_resolved;
    [ | exact Hnodup | exact Hidx | now apply unmatchedNames_nil_lookup
      | exact Hproto | intros name _ [] ].
  change (Obj.keys (@Obj.empty TeamRef, @nil string).1 ++ allowed) with allowed.
  unfold bind, await, logged, respond, ret. cbn [teamCache calls].
  now destruct (listWorkItems connection _).
Qed.

Lemma allowedTeamsWiql_alpha_beta (X : string) :
  allowedTeamsWiql X ["Alpha"; "Beta"]
  = ("SELECT [System.Id] FROM WorkItems WHERE [System.TeamProject] = '" ++ X
     ++ "' AND ([System.AreaPath] UNDER '" ++ X ++ "\Alpha'"
     ++ " OR [System.AreaPath] UNDER '" ++ X ++ "\Beta'"
     ++ ") ORDER BY [System.Id]")%string.
Proof.
  unfold allowedTeamsWiql, areaPathCondition, Js.join.
  cbn [List.map String.concat].
  rewrite !append_assoc. reflexivity.
Qed.

(** C8: with the allow-list ["Alpha"; "Beta"], both names matching teams of
    project X, a listing that names no team fetches the teams of X and then
    calls [listWorkItems] with the query
    [System.TeamProject] = 'X' AND ([System.AreaPath] UNDER 'X\Alpha' OR
    [System.AreaPath] UNDER 'X\Beta'): one clause for each allowed team, in
    the order of the map of allowed teams. *)
Theorem listing_scoped_to_alpha_and_beta
  defaultProject connection config args teams st :
  parseAllowedTeamBoards (allowedTeamBoards config) = Some ["Alpha"; "Beta"] ->
  present (l_teamId args) = None ->
  coreGetTeams connection (default defaultProject (l_projectId args)) = Ok teams ->
  matchingTeamId teams "Alpha" <> None ->
  matchingTeamId teams "Beta" <> None ->
  let X := default defaultProject (l_projectId args) in
  let scoped :=
    mkListOptions X None None
      (Some ("SELECT [System.Id] FROM WorkItems WHERE [System.TeamProject] = '" ++ X
             ++ "' AND ([System.AreaPath] UNDER '" ++ X ++ "\Alpha'"
             ++ " OR [System.AreaPath] UNDER '" ++ X ++ "\Beta'"
             ++ ") ORDER BY [System.Id]")%string)
      (l_top args) (l_skip args) in
  exists st1,
    handleWorkItemsRequest defaultProject connection (list_work_items (Some args))
      (Some config) st
    = (respond TextOfWorkItems (listWorkItems connection scoped),
       logged (CallListWorkItems scoped) st1)
    /\ calls st1 = calls st ++ [CallGetTeams X].
Proof.
  intros Hparse Hteam Hteams Halpha Hbeta X scoped.
  eexists (mkState _ _). split; [|reflexivity].
  rewrite (handle_list_scoped defaultProject connection config ["Alpha"; "Beta"]
             args teams st); trivial.
  - cbv zeta. fold X. rewrite allowedTeamsWiql_alpha_beta. reflexivity.
  - now rewrite Hparse.
  - unfold unmatchedNames. simpl.
    destruct (matchingTeamId teams "Alpha"); [|congruence].
    destruct (matchingTeamId teams "Beta"); [|congruence]. reflexivity.
  - repeat constructor; rewrite ?list_elem_of_In; simpl; intuition discriminate.
  - repeat constructor.
  - simpl. intuition discriminate.
Qed.

Lemma listing_scoped_to_alpha_and_beta_witness :
  exists st1,
    handleWorkItemsRequest "X" Sample.connection
      (list_work_items (Some (mkListArgs (Some "ProjectX") None None None (Some 50%Z) None)))
      (Some (Sample.config (Some "Alpha,Beta"))) Sample.fresh
    = (Ok (TextOfWorkItems [Sample.inAlphaArea]),
       logged
         (CallListWorkItems
            (mkListOptions "ProjectX" None None
               (Some "SELECT [System.Id] FROM WorkItems WHERE [System.TeamProject] = 'ProjectX' AND ([System.AreaPath] UNDER 'ProjectX\Alpha' OR [System.AreaPath] UNDER 'ProjectX\Beta') ORDER BY [System.Id]")
               (Some 50%Z) None)) st1)
    /\ calls st1 = [CallGetTeams "ProjectX"].
Proof.
  exact (listing_scoped_to_alpha_and_beta "X" Sample.connection
           (Sample.config (Some "Alpha,Beta"))
           (mkListArgs (Some "ProjectX") None None None (Some 50%Z) None)
           Sample.teams Sample.fresh eq_refl eq_refl eq_refl
           ltac:(discriminate) ltac:(discriminate)).
Defined.

Example listing_keys_follow_object_order :
  fst (handleWorkItemsRequest "X" Sample.connection
         (list_work_items (Some (mkListArgs (Some "ProjectX") None None None None None)))
         (Some (Sample.config (Some "Beta,Alpha,beta,Beta"))) Sample.fresh)
  = Ok (TextOfWorkItems [Sample.inAlphaArea])
  /\ List.last (calls (snd (handleWorkItemsRequest "X" Sample.connection
         (list_work_items (Some (mkListArgs (Some "ProjectX") None None None None None)))
         (Some (Sample.config (Some "Beta,Alpha,beta,Beta"))) Sample.fresh)))
       (CallGetTeams "")
     = CallListWorkItems
         (mkListOptions "ProjectX" None None
            (Some (allowedTeamsWiql "ProjectX" ["Beta"; "Alpha"; "beta"])) None None).
Proof. vm_compute. split; reflexivity. Qed.

(** * The rest of the access-control code *)

(** ** Trimming and splitting *)

Lemma trimStart_In c s :
  In c (list_ascii_of_string (Js.trimStart s)) -> In c (list_ascii_of_string s).
Proof.
  induction s as [|a s IH]; simpl; [tauto|].
  destruct (Js.isWhiteSpace a); simpl; tauto.
Qed.

Lemma trimEnd_In c s :
  In c (list_ascii_of_string (Js.trimEnd s)) -> In c (list_ascii_of_string s).
Proof.
  induction s as [|a s IH]; simpl; [tauto|].
  destruct (Js.trimEnd s) as [|b r] eqn:Hend.
  - destruct (Js.isWhiteSpace a); simpl; tauto.
  - simpl in *. tauto.
Qed.

Lemma trim_In c s :
  In c (list_ascii_of_string (Js.trim s)) -> In c (list_ascii_of_string s).
Proof. intros H. now apply trimStart_In, trimEnd_In. Qed.

Lemma trimEnd_idempotent s : Js.trimEnd (Js.trimEnd s) = Js.trimEnd s.
Proof.
  induction s as [|a s IH]; simpl; [reflexivity|].
  destruct (Js.trimEnd s) as [|b r] eqn:Hend.
  - destruct (Js.isWhiteSpace a) eqn:Hws; simpl; [reflexivity|]. now rewrite Hws.
  - simpl. simpl in IH. now rewrite IH.
Qed.

Lemma trimStart_startsClean s : startsClean (Js.trimStart s).
Proof.
  induction s as [|a s IH]; simpl; [exact I|].
  destruct (Js.isWhiteSpace a) eqn:Hws; [assumption | exact Hws].
Qed.

Lemma trimStart_of_startsClean s : startsClean s -> Js.trimStart s = s.
Proof. destruct s as [|a s]; simpl; [reflexivity|]. now intros ->. Qed.

Lemma trimEnd_startsClean s : startsClean s -> startsClean (Js.trimEnd s).
Proof.
  destruct s as [|a s]; simpl; [trivial|]. intros Hws.
  destruct (Js.trimEnd s); [now rewrite Hws | exact Hws].
Qed.

Lemma trim_idempotent s : Js.trim (Js.trim s) = Js.trim s.
Proof.
  unfold Js.trim.
  rewrite (trimStart_of_startsClean (Js.trimEnd (Js.trimStart s))).
  - apply trimEnd_idempotent.
  - apply trimEnd_startsClean, trimStart_startsClean.
Qed.

Lemma split_segments_without_separator sep s seg :
  In seg (Js.split sep s) -> ~ In sep (list_ascii_of_string seg).
Proof.
  revert seg. induction s as [|a s IH]; simpl; intros seg.
  - intros [<-|[]]. simpl. tauto.
  - destruct (Ascii.eqb_spec a sep) as [->|Hne].
    + intros [<-|Hin]; [simpl; tauto | now apply IH].
    + destruct (Js.split sep s) as [|first rest]; simpl.
      * intros [<-|[]]. simpl. intros [Heq|[]]. congruence.
      * intros [<-|Hin].
        -- simpl. intros [Heq|Hin]; [congruence|].
           apply (IH first); [now left | exact Hin].
        -- apply IH. now right.
Qed.

Lemma truthy_length s : (0 <? String.length s)%nat = Js.truthy s.
Proof. now destruct s. Qed.

Lemma parseAllowedTeamBoards_Some raw allowed :
  parseAllowedTeamBoards (Some raw) = Some allowed ->
  allowed = List.filter Js.truthy (List.map Js.trim (Js.split Js.comma raw)).
Proof.
  unfold parseAllowedTeamBoards.
  destruct (negb (Js.truthy raw) || String.eqb (Js.trim raw) ""); [discriminate|].
  intros [= <-]. apply List.filter_ext. intros name. apply truthy_length.
Qed.

(** X1: whatever the raw setting, the names the parser returns are not
    empty, have no white space left at either end, and contain no comma. *)
Theorem parseAllowedTeamBoards_names_clean allowedTeamBoards allowed :
  parseAllowedTeamBoards allowedTeamBoards = Some allowed ->
  Forall cleanName allowed.
Proof.
  destruct allowedTeamBoards as [raw|]; [|discriminate].
  intros Hparse. apply parseAllowedTeamBoards_Some in Hparse. subst allowed.
  apply List.Forall_forall. intros name Hin.
  apply List.filter_In in Hin as [Hin Htruthy].
  apply List.in_map_iff in Hin as (seg & <- & Hseg).
  repeat split.
  - exact Htruthy.
  - apply trim_idempotent.
  - intros Hcomma. apply trim_In in Hcomma.
    now apply (split_segments_without_separator _ _ _ Hseg).
Qed.

Lemma parseAllowedTeamBoards_names_clean_witness :
  Forall cleanName ["Team Alpha"; "Beta"].
Proof.
  exact (parseAllowedTeamBoards_names_clean (Some " Team Alpha ,, Beta ,")
           ["Team Alpha"; "Beta"] eq_refl).
Defined.

Lemma append_String (c : ascii) (s1 s2 : string) :
  (String c s1 ++ s2 = String c (s1 ++ s2))%string.
Proof. reflexivity. Qed.

Lemma split_segment_then_separator sep (seg rest : string) :
  ~ In sep (list_ascii_of_string seg) ->
  Js.split sep (seg ++ String sep rest) = seg :: Js.split sep rest.
Proof.
  induction seg as [|a seg IH]; intros Hnot.
  - change (Js.split sep (String sep rest) = "" :: Js.split sep rest).
    simpl. now rewrite Ascii.eqb_refl.
  - rewrite append_String. simpl in Hnot. simpl Js.split.
    destruct (Ascii.eqb_spec a sep) as [->|Hne]; [tauto|].
    rewrite IH by tauto. reflexivity.
Qed.

Lemma join_cons sep (name : string) names :
  Js.join sep (name :: names)
  = match names with
    | [] => name
    | _ :: _ => (name ++ sep ++ Js.join sep names)%string
    end.
Proof. now destruct names. Qed.

Lemma split_join names :
  names <> [] ->
  Forall (fun name => ~ In Js.comma (list_ascii_of_string name)) names ->
  Js.split Js.comma (Js.join "," names) = names.
Proof.
  induction names as [|name names IH]; [congruence|]. intros _ Hclean.
  inversion Hclean as [|? ? Hname Hnames]; subst.
  rewrite join_cons. destruct names as [|next names].
  - now apply split_without_separator.
  - change ("," ++ Js.join "," (next :: names))%string
      with (String Js.comma (Js.join "," (next :: names))).
    rewrite (split_segment_then_separator _ _ _ Hname).
    now rewrite IH.
Qed.

Lemma trimStart_length s : (String.length (Js.trimStart s) <= String.length s)%nat.
Proof.
  induction s as [|a s IH]; simpl; [lia|].
  destruct (Js.isWhiteSpace a); simpl; lia.
Qed.

Lemma trimEnd_length s : (String.length (Js.trimEnd s) <= String.length s)%nat.
Proof.
  induction s as [|a s IH]; simpl; [lia|].
  destruct (Js.trimEnd s); [destruct (Js.isWhiteSpace a)|]; simpl in *; lia.
Qed.

Lemma cleanName_head name :
  cleanName name -> exists c rest, name = String c rest /\ Js.isWhiteSpace c = false.
Proof.
  intros (Htruthy & Htrim & _). destruct name as [|c rest]; [discriminate|].
  exists c, rest. split; [reflexivity|].
  destruct (Js.isWhiteSpace c) eqn:Hws; [exfalso|reflexivity].
  assert (Hlen : (String.length (Js.trim (String c rest)) <= String.length rest)%nat).
  { unfold Js.trim. simpl Js.trimStart. rewrite Hws.
    pose proof (trimEnd_length (Js.trimStart rest)).
    pose proof (trimStart_length rest). lia. }
  rewrite Htrim in Hlen. simpl in Hlen. lia.
Qed.

Lemma trim_of_clean_head c rest :
  Js.isWhiteSpace c = false -> Js.truthy (Js.trim (String c rest)) = true.
Proof.
  intros Hws. unfold Js.trim. simpl Js.trimStart. rewrite Hws. simpl.
  destruct (Js.trimEnd rest); [now rewrite Hws | reflexivity].
Qed.

(** X2: writing clean names separated by commas and parsing the result gives
    the names back, in their order. *)
Theorem parseAllowedTeamBoards_of_joined_names names :
  names <> [] ->
  Forall cleanName names ->
  parseAllowedTeamBoards (Some (Js.join "," names)) = Some names.
Proof.
  intros Hsome Hclean.
  assert (Hhead : exists c rest,
             Js.join "," names = String c rest /\ Js.isWhiteSpace c = false).
  { destruct names as [|name names]; [congruence|].
    inversion Hclean as [|? ? Hname _]; subst.
    destruct (cleanName_head _ Hname) as (c & rest & -> & Hws).
    rewrite join_cons. destruct names; [now exists c, rest|].
    rewrite append_String. eauto. }
  destruct Hhead as (c & rest & Hraw & Hws).
  unfold parseAllowedTeamBoards.
  rewrite split_join; [|assumption|].
  - rewrite Hraw. pose proof (trim_of_clean_head c rest Hws) as Htrimmed.
    destruct (Js.trim (String c rest)) as [|c' rest'] eqn:Htrim; [discriminate|].
    cbn [Js.truthy negb orb String.eqb]. f_equal.
    rewrite (List.map_ext_in Js.trim (fun name => name)).
    + rewrite List.map_id. apply List.forallb_filter_id.
      apply List.forallb_forall. intros name Hin.
      rewrite truthy_length.
      rewrite List.Forall_forall in Hclean. now apply Hclean.
    + intros name Hin. rewrite List.Forall_forall in Hclean.
      now apply Hclean.
  - eapply List.Forall_impl; [|exact Hclean]. now intros name (_ & _ & Hcomma).
Qed.

Lemma parseAllowedTeamBoards_of_joined_names_witness :
  parseAllowedTeamBoards (Some "Team Alpha,Beta") = Some ["Team Alpha"; "Beta"].
Proof.
  apply (parseAllowedTeamBoards_of_joined_names ["Team Alpha"; "Beta"]).
  - discriminate.
  - repeat constructor; vm_compute; intuition discriminate.
Defined.

(** ** The team segment of an area path *)

Lemma startsWith_append (p rest : string) : Js.startsWith (p ++ rest) p = true.
Proof.
  unfold Js.startsWith. induction p as [|a p IH]; [now destruct rest|].
  rewrite append_String. simpl. now destruct (ascii_dec a a).
Qed.

Lemma substring_past_prefix (p : string) (c : ascii) (rest : string) :
  Js.substring (String.length p + 1) (p ++ String c rest) = rest.
Proof.
  induction p as [|a p IH]; [reflexivity|].
  rewrite append_String. exact IH.
Qed.

Lemma extractTeamNameFromAreaPath_under_project projectId rest :
  extractTeamNameFromAreaPath (projectId ++ String Js.backslash rest) projectId
  = match Js.split Js.backslash rest with
    | segment :: _ => if Js.truthy segment then Some segment else None
    | [] => None
    end.
Proof.
  unfold extractTeamNameFromAreaPath.
  replace (projectId ++ String Js.backslash rest)%string
    with ((projectId ++ String Js.backslash "") ++ rest)%string at 1
    by (now rewrite append_assoc).
  now rewrite startsWith_append, substring_past_prefix.
Qed.

(** X3: from an area path "<project>\<team>" or "<project>\<team>\<more>",
    with a team name that is not empty and has no separator, the team name
    is extracted, whatever follows it. *)
Theorem extractTeamNameFromAreaPath_team_segment projectId team more :
  Js.truthy team = true ->
  ~ In Js.backslash (list_ascii_of_string team) ->
  extractTeamNameFromAreaPath (projectId ++ String Js.backslash team) projectId
  = Some team
  /\ extractTeamNameFromAreaPath
       (projectId ++ String Js.backslash (team ++ String Js.backslash more)) projectId
     = Some team.
Proof.
  intros Htruthy Hnot. rewrite !extractTeamNameFromAreaPath_under_project.
  rewrite (split_without_separator _ _ Hnot).
  rewrite (split_segment_then_separator _ _ _ Hnot).
  now rewrite Htruthy.
Qed.

Lemma extractTeamNameFromAreaPath_team_segment_witness :
  extractTeamNameFromAreaPath "ProjectX\Team Alpha" "ProjectX" = Some "Team Alpha"
  /\ extractTeamNameFromAreaPath "ProjectX\Team Alpha\Sub\Area" "ProjectX"
     = Some "Team Alpha".
Proof.
  apply (extractTeamNameFromAreaPath_team_segment "ProjectX" "Team Alpha" "Sub\Area").
  - reflexivity.
  - vm_compute. intuition discriminate.
Defined.

(** X4: a team name extracted from an area path is never empty and never
    contains the separator, whatever the area path and the project. *)
Theorem extractTeamNameFromAreaPath_result areaPath projectId team :
  extractTeamNameFromAreaPath areaPath projectId = Some team ->
  Js.truthy team = true /\ ~ In Js.backslash (list_ascii_of_string team).
Proof.
  unfold extractTeamNameFromAreaPath.
  set (path := if Js.startsWith areaPath _ then _ else _).
  destruct (Js.split Js.backslash path) as [|segment rest] eqn:Hsplit; [discriminate|].
  destruct (Js.truthy segment) eqn:Htruthy; [|discriminate].
  intros [= <-]. split; [exact Htruthy|].
  apply (split_segments_without_separator Js.backslash path).
  rewrite Hsplit. now left.
Qed.

Lemma extractTeamNameFromAreaPath_result_witness :
  Js.truthy "OtherProject" = true
  /\ ~ In Js.backslash (list_ascii_of_string "OtherProject").
Proof.
  exact (extractTeamNameFromAreaPath_result "OtherProject\Team\Sub" "ProjectX"
           "OtherProject" eq_refl).
Defined.

(** ** Resolving team IDs *)

Lemma find_hasId_none teamId teams :
  Forall (fun team => team_id team <> Some teamId) teams ->
  List.find (hasId teamId) teams = None.
Proof.
  induction 1 as [|team teams Hteam _ IH]; simpl; [reflexivity|].
  unfold hasId at 1. destruct (team_id team) as [id|]; [|exact IH].
  destruct (String.eqb_spec id teamId) as [->|_]; [congruence | exact IH].
Qed.

(** X5: a team ID that is neither cached nor borne by a team of the fetched
    list resolves to null, not to an error: one fetch is made and the cache
    is left as it was. *)
Theorem getTeamNameById_unknown_id connection projectId teamId st teams :
  cachedTeamName (teamCache st) projectId teamId = None ->
  coreGetTeams connection projectId = Ok teams ->
  Forall (fun team => team_id team <> Some teamId) teams ->
  getTeamNameById connection projectId teamId st
  = (Ok None, logged (CallGetTeams projectId) st).
Proof.
  intros Hmiss Hteams Hnone.
  rewrite (getTeamNameById_miss _ _ _ _ Hmiss), Hteams.
  unfold resolvedTeam. now rewrite (find_hasId_none _ _ Hnone).
Qed.

Lemma getTeamNameById_unknown_id_witness :
  getTeamNameById Sample.connection "ProjectX" "id-omega" Sample.fresh
  = (Ok None, logged (CallGetTeams "ProjectX") Sample.fresh).
Proof.
  apply (getTeamNameById_unknown_id Sample.connection "ProjectX" "id-omega"
           Sample.fresh Sample.teams eq_refl eq_refl).
  repeat constructor; discriminate.
Defined.











(** ** What [getAllowedTeamIds] leaves in the cache *)



Lemma getAllowedTeamIds_cache connection projectId names teams st :
  coreGetTeams connection projectId = Ok teams ->
  teamCache (snd (getAllowedTeamIds connection projectId names st))
  = snd (List.fold_left (recordTeam projectId) teams (Obj.empty, teamCache st)).
Proof.
  intros Hteams. now rewrite (getAllowedTeamIds_run _ _ _ _ _ Hteams).
Qed.







(** ** What the validators let through *)

Lemma present_Some teamName name :
  present teamName = Some name -> teamName = Some name /\ Js.truthy name = true.
Proof.
  unfold present. destruct teamName as [n|]; [|discriminate].
  destruct (Js.truthy n) eqn:Htruthy; [|discriminate].
  now intros [= <-].
Qed.

(** X9: [validateWorkItemTeamAccess] returns normally only for a work item
    whose team is on the allow-list: the team is the one [getTeamNameById]
    resolves System.TeamId to or, when the item has no team ID, the one
    extracted from System.AreaPath, in which case the state is untouched. *)
Theorem validateWorkItemTeamAccess_sound config connection projectId workItem st st' :
  validateWorkItemTeamAccess config connection projectId workItem st = (Ok tt, st') ->
  exists allowed team,
    configuredTeams (parseAllowedTeamBoards (allowedTeamBoards config)) = Some allowed
    /\ isTeamAllowed (Some allowed) team = true
    /\ ((exists teamId,
           getWorkItemTeamId workItem = Some teamId
           /\ getTeamNameById connection projectId teamId st = (Ok (Some team), st'))
        \/ (getWorkItemTeamId workItem = None
            /\ exists areaPath,
                 getWorkItemAreaPath workItem = Some areaPath
                 /\ extractTeamNameFromAreaPath areaPath projectId = Some team
                 /\ st' = st)).
Proof.
  unfold validateWorkItemTeamAccess.
  destruct (configuredTeams _) as [allowed|] eqn:boards; [|discriminate].
  rewrite (configuredTeams_Some _ _ boards).
  destruct (getWorkItemTeamId workItem) as [teamId|] eqn:HteamId.
  - unfold bind at 1. unfold bind at 1.
    destruct (getTeamNameById connection projectId teamId st) as [[resolved|e] st1]
      eqn:Hresolve; [|discriminate].
    destruct (present resolved) as [team|] eqn:Hpresent; [|discriminate].
    apply present_Some in Hpresent as [-> _].
    unfold ret at 1. destruct (isTeamAllowed (Some allowed) team) eqn:Hallowed;
      [|discriminate].
    intros [= <-]. exists allowed, team. repeat split; trivial.
    left. now exists teamId.
  - unfold bind at 1.
    destruct (getWorkItemAreaPath workItem) as [areaPath|] eqn:Harea; [|discriminate].
    destruct (present (extractTeamNameFromAreaPath areaPath projectId)) as [team|]
      eqn:Hpresent; [|discriminate].
    apply present_Some in Hpresent as [Hextract _].
    unfold ret at 1. destruct (isTeamAllowed (Some allowed) team) eqn:Hallowed;
      [|discriminate].
    intros [= <-]. exists allowed, team. repeat split; trivial.
    right. split; [reflexivity|]. now exists areaPath.
Qed.

Lemma validateWorkItemTeamAccess_sound_witness :
  exists allowed team,
    configuredTeams (parseAllowedTeamBoards (Some "Alpha, Beta")) = Some allowed
    /\ isTeamAllowed (Some allowed) team = true
    /\ ((exists teamId,
           getWorkItemTeamId Sample.onBetaBoard = Some teamId
           /\ getTeamNameById Sample.connection "ProjectX" teamId Sample.fresh
              = (Ok (Some team),
                 mkState {[ "ProjectX" := [("beta", "id-beta")] ]}
                   [CallGetTeams "ProjectX"]))
        \/ (getWorkItemTeamId Sample.onBetaBoard = None
            /\ exists areaPath,
                 getWorkItemAreaPath Sample.onBetaBoard = Some areaPath
                 /\ extractTeamNameFromAreaPath areaPath "ProjectX" = Some team
                 /\ mkState {[ "ProjectX" := [("beta", "id-beta")] ]}
                      [CallGetTeams "ProjectX"] = Sample.fresh)).
Proof.
  apply (validateWorkItemTeamAccess_sound (Sample.config (Some "Alpha, Beta"))
           Sample.connection "ProjectX" Sample.onBetaBoard Sample.fresh).
  vm_compute. reflexivity.
Defined.

(** X10: when a work item has a System.TeamId, only that ID and the item's
    number enter the decision: two items that agree on them get the same
    outcome, whatever their area paths and other fields. *)
Theorem validateWorkItemTeamAccess_team_id_first
  config connection projectId workItem workItem' teamId st :
  getWorkItemTeamId workItem = Some teamId ->
  getWorkItemTeamId workItem' = Some teamId ->
  wi_id workItem = wi_id workItem' ->
  validateWorkItemTeamAccess config connection projectId workItem st
  = validateWorkItemTeamAccess config connection projectId workItem' st.
Proof.
  intros Hid Hid' Hnumber. unfold validateWorkItemTeamAccess.
  rewrite Hid, Hid'.
  unfold teamIdNotFoundMessage, itemDeniedMessage. now rewrite Hnumber.
Qed.

Lemma validateWorkItemTeamAccess_team_id_first_witness :
  validateWorkItemTeamAccess (Sample.config (Some "Alpha")) Sample.connection "ProjectX"
    (Sample.item 7 [("System.TeamId", JsStr "id-gamma");
                    ("System.AreaPath", JsStr "ProjectX\Alpha")]) Sample.fresh
  = validateWorkItemTeamAccess (Sample.config (Some "Alpha")) Sample.connection "ProjectX"
      (Sample.item 7 [("System.TeamId", JsStr "id-gamma")]) Sample.fresh.
Proof.
  apply (validateWorkItemTeamAccess_team_id_first (Sample.config (Some "Alpha"))
           Sample.connection "ProjectX" _ _ "id-gamma"); reflexivity.
Defined.

Example team_id_of_a_foreign_team_beats_allowed_area :
  fst (validateWorkItemTeamAccess (Sample.config (Some "Alpha")) Sample.connection
         "ProjectX"
         (Sample.item 7 [("System.TeamId", JsStr "id-gamma");
                         ("System.AreaPath", JsStr "ProjectX\Alpha")]) Sample.fresh)
  = Err (AzureDevOpsValidationError
           (itemDeniedMessage (Sample.item 7 []) "Gamma" ["Alpha"])).
Proof. vm_compute. reflexivity. Qed.

(** X11: a work item without a usable System.TeamId is decided without any
    call and without touching the cache; if it has no usable System.AreaPath
    either, the decision is a validation error. *)
Theorem validateWorkItemTeamAccess_without_team_id
  config connection projectId workItem st :
  getWorkItemTeamId workItem = None ->
  snd (validateWorkItemTeamAccess config connection projectId workItem st) = st
  /\ (getWorkItemAreaPath workItem = None ->
      exists message,
        fst (validateWorkItemTeamAccess config connection projectId workItem st)
        = Err (AzureDevOpsValidationError message)).
Proof.
  intros Hid. unfold validateWorkItemTeamAccess. rewrite Hid.
  destruct (configuredTeams _) as [allowed|].
  - destruct (getWorkItemAreaPath workItem) as [areaPath|].
    + split; [|discriminate]. unfold bind.
      destruct (present _) as [team|]; [|reflexivity].
      unfold ret. now destruct (negb _).
    + split; [reflexivity|]. intros _. now eexists.
  - split; [reflexivity|]. intros _. now eexists.
Qed.

Lemma validateWorkItemTeamAccess_without_team_id_witness :
  snd (validateWorkItemTeamAccess (Sample.config (Some "Alpha")) Sample.connection
         "ProjectX" (Sample.item 8 [("System.TeamId", JsNum 12)]) Sample.fresh)
  = Sample.fresh
  /\ exists message,
       fst (validateWorkItemTeamAccess (Sample.config (Some "Alpha")) Sample.connection
              "ProjectX" (Sample.item 8 [("System.TeamId", JsNum 12)]) Sample.fresh)
       = Err (AzureDevOpsValidationError message).
Proof.
  destruct (validateWorkItemTeamAccess_without_team_id (Sample.config (Some "Alpha"))
              Sample.connection "ProjectX" (Sample.item 8 [("System.TeamId", JsNum 12)])
              Sample.fresh eq_refl) as [Hstate Hdenied].
  split; [exact Hstate | exact (Hdenied eq_refl)].
Defined.

(** X12: when the team of a work item has to be fetched and the fetch fails,
    the validation ends in the error "Failed to get teams for project",
    carrying the cause: a failed fetch never lets the item through. *)
Theorem validateWorkItemTeamAccess_fetch_failure
  config connection projectId workItem allowed teamId error st :
  configuredTeams (parseAllowedTeamBoards (allowedTeamBoards config)) = Some allowed ->
  getWorkItemTeamId workItem = Some teamId ->
  cachedTeamName (teamCache st) projectId teamId = None ->
  coreGetTeams connection projectId = Err error ->
  validateWorkItemTeamAccess config connection projectId workItem st
  = (Err (AzureDevOpsValidationError
            ("Failed to get teams for project '" ++ projectId ++ "': "
             ++ errorMessage error)),
     logged (CallGetTeams projectId) st).
Proof.
  intros boards Hid Hmiss Hfail. unfold validateWorkItemTeamAccess.
  rewrite boards, Hid.
  pose proof (getTeamNameById_miss connection projectId teamId st Hmiss) as Hrun.
  rewrite Hfail in Hrun.
  unfold bind at 1. unfold bind at 1. now rewrite Hrun.
Qed.

Lemma validateWorkItemTeamAccess_fetch_failure_witness :
  validateWorkItemTeamAccess (Sample.config (Some "Beta")) Sample.connection
    "ProjectY" Sample.onBetaBoard Sample.fresh
  = (Err (AzureDevOpsValidationError
            "Failed to get teams for project 'ProjectY': project does not exist"),
     logged (CallGetTeams "ProjectY") Sample.fresh).
Proof.
  exact (validateWorkItemTeamAccess_fetch_failure (Sample.config (Some "Beta"))
           Sample.connection "ProjectY" Sample.onBetaBoard ["Beta"] "id-beta"
           (UpstreamError "project does not exist") Sample.fresh
           eq_refl eq_refl eq_refl eq_refl).
Defined.

(** X13: [validateTeamBoardAccess], given a team ID, returns normally only
    when the ID resolves to a team that is on the allow-list. *)
Theorem validateTeamBoardAccess_sound config connection projectId teamId st st' :
  Js.truthy teamId = true ->
  validateTeamBoardAccess config connection projectId (Some teamId) st = (Ok tt, st') ->
  exists allowed team,
    configuredTeams (parseAllowedTeamBoards (allowedTeamBoards config)) = Some allowed
    /\ getTeamNameById connection projectId teamId st = (Ok (Some team), st')
    /\ isTeamAllowed (Some allowed) team = true.
Proof.
  intros Htruthy. unfold validateTeamBoardAccess.
  destruct (configuredTeams _) as [allowed|] eqn:boards; [|discriminate].
  rewrite (configuredTeams_Some _ _ boards).
  unfold present at 1. rewrite Htruthy. unfold bind at 1.
  destruct (getTeamNameById connection projectId teamId st) as [[resolved|e] st1]
    eqn:Hresolve; [|discriminate].
  destruct (present resolved) as [team|] eqn:Hpresent; [|discriminate].
  apply present_Some in Hpresent as [-> _].
  destruct (isTeamAllowed (Some allowed) team) eqn:Hallowed; [|discriminate].
  intros [= <-]. now exists allowed, team.
Qed.

Lemma validateTeamBoardAccess_sound_witness :
  exists allowed team,
    configuredTeams (parseAllowedTeamBoards (Some "beta")) = Some allowed
    /\ getTeamNameById Sample.connection "ProjectX" "id-beta" Sample.fresh
       = (Ok (Some team),
          mkState {[ "ProjectX" := [("beta", "id-beta")] ]} [CallGetTeams "ProjectX"])
    /\ isTeamAllowed (Some allowed) team = true.
Proof.
  apply (validateTeamBoardAccess_sound (Sample.config (Some "beta")) Sample.connection
           "ProjectX" "id-beta" Sample.fresh _ eq_refl).
  vm_compute. reflexivity.
Defined.

(** ** Fetching and validating one work item *)

Lemma fetchAndValidateWorkItem_Ok config connection projectId workItemId st workItem st' :
  fetchAndValidateWorkItem config connection projectId workItemId st = (Ok workItem, st') ->
  witGetWorkItem connection workItemId = Ok (Some workItem)
  /\ validateWorkItemTeamAccess config connection projectId workItem
       (logged (CallWitGetWorkItem workItemId) st) = (Ok tt, st').
Proof.
  unfold fetchAndValidateWorkItem, bind, await. fold (logged (CallWitGetWorkItem workItemId) st).
  destruct (witGetWorkItem connection workItemId) as [[fetched|]|e]; try discriminate.
  destruct (validateWorkItemTeamAccess config connection projectId fetched _)
    as [[[]|e] st1] eqn:Hvalid; [|discriminate].
  unfold ret. now intros [= <- <-].
Qed.

(** ** The router without a configuration, and on requests it cannot serve *)

Lemma opensRouter_check defaultProject connection config st :
  opensRouter config ->
  match config with
  | Some config => validateTeamBoardAccess config connection defaultProject None
  | None => ret tt
  end st = (Ok tt, st).
Proof.
  destruct config as [config|]; [|reflexivity].
  intros [allowed boards]. now apply validateTeamBoardAccess_no_team with allowed.
Qed.

(** X14: without a configuration the router makes no check at all: each of
    the five tools goes straight to its feature with the caller's arguments,
    that call being the only one made, and the cache is not touched. *)
Theorem handleWorkItemsRequest_without_config
  defaultProject connection st
  (got : GetWorkItemArgs) (listed : ListWorkItemsArgs) (created : CreateWorkItemArgs)
  (updated : UpdateWorkItemArgs) (linked : ManageWorkItemLinkArgs) :
  handleWorkItemsRequest defaultProject connection (get_work_item (Some got)) None st
  = (respond TextOfWorkItem
       (getWorkItem connection (g_workItemId got) (g_expand got)),
     logged (CallGetWorkItem (g_workItemId got) (g_expand got)) st)
  /\ (let options :=
        mkListOptions (default defaultProject (l_projectId listed)) (l_teamId listed)
          (l_queryId listed) (l_wiql listed) (l_top listed) (l_skip listed) in
      handleWorkItemsRequest defaultProject connection (list_work_items (Some listed)) None st
      = (respond TextOfWorkItems (listWorkItems connection options),
         logged (CallListWorkItems options) st))
  /\ (let projectId := default defaultProject (c_projectId created) in
      let options :=
        mkCreateOptions (c_title created) (c_areaPath created) (c_other created) in
      handleWorkItemsRequest defaultProject connection (create_work_item (Some created))
        None st
      = (respond TextOfWorkItem
           (createWorkItem connection projectId (c_workItemType created) options),
         logged (CallCreateWorkItem projectId (c_workItemType created) options) st))
  /\ (let options := mkUpdateOptions (u_areaPath updated) (u_other updated) in
      handleWorkItemsRequest defaultProject connection (update_work_item (Some updated))
        None st
      = (respond TextOfWorkItem
           (updateWorkItem connection (u_workItemId updated) options),
         logged (CallUpdateWorkItem (u_workItemId updated) options) st))
  /\ (let projectId := default defaultProject (k_projectId linked) in
      let options :=
        mkLinkOptions (k_sourceWorkItemId linked) (k_targetWorkItemId linked)
          (k_operation linked) (k_relationType linked) (k_other linked) in
      handleWorkItemsRequest defaultProject connection
        (manage_work_item_link (Some linked)) None st
      = (respond TextOfWorkItem (manageWorkItemLink connection projectId options),
         logged (CallManageWorkItemLink projectId options) st)).
Proof.
  repeat split; cbv zeta;
    unfold handleWorkItemsRequest, parsed, effectiveAreaPath, bind, ret, await,
      logged, respond; cbn [teamCache calls].
  - now destruct (getWorkItem connection _ _).
  - now destruct (listWorkItems connection _).
  - destruct (present (c_areaPath created)); now destruct (createWorkItem connection _ _ _).
  - now destruct (updateWorkItem connection _ _).
  - now destruct (manageWorkItemLink connection _ _).
Qed.

(** X15: a request the router cannot serve (arguments the schema rejects, an
    unknown tool) raises the corresponding error without any call, once the
    opening check has let it through, that is without a configuration or with
    a configuration that lists boards. *)
Theorem handleWorkItemsRequest_rejection
  defaultProject connection request config error st :
  opensRouter config ->
  rejection request = Some error ->
  handleWorkItemsRequest defaultProject connection request config st = (Err error, st).
Proof.
  intros Hopen Hrejected. unfold handleWorkItemsRequest.
  rewrite (bind_ok _ _ _ _ _ (opensRouter_check defaultProject connection config st Hopen)).
  destruct request as [[?|]|[?|]|[?|]|[?|]|[?|]|name];
    simpl in Hrejected; try discriminate; injection Hrejected as <-; reflexivity.
Qed.

Lemma handleWorkItemsRequest_rejection_witness :
  handleWorkItemsRequest "ProjectX" Sample.connection (other_tool "delete_work_item")
    (Some (Sample.config (Some "Alpha"))) Sample.fresh
  = (Err (PlainError "Unknown work items tool: delete_work_item"), Sample.fresh).
Proof.
  apply handleWorkItemsRequest_rejection.
  - now exists ["Alpha"].
  - reflexivity.
Defined.

(** ** Reading through the router *)

Lemma handle_get defaultProject connection config allowed args st :
  configuredTeams (parseAllowedTeamBoards (allowedTeamBoards config)) = Some allowed ->
  handleWorkItemsRequest defaultProject connection (get_work_item (Some args))
    (Some config) st
  = match fetchAndValidateWorkItem config connection defaultProject
            (g_workItemId args) st with
    | (Ok workItem, st') => (Ok (TextOfWorkItem workItem), st')
    | (Err e, st') => (Err e, st')
    end.
Proof.
  intros boards. unfold handleWorkItemsRequest.
  rewrite (bind_ok _ _ _ _ _ (validateTeamBoardAccess_no_team _ _ _ _ st boards)).
  unfold parsed. rewrite bind_ret. cbv beta. unfold bind at 1.
  now destruct (fetchAndValidateWorkItem _ _ _ _ st) as [[workItem|e] st'].
Qed.

(** X16: under a configuration, the work item a get request returns is the
    one the service holds under the requested number, fetched by the router
    itself, and it has passed [validateWorkItemTeamAccess] in the default
    project; the [expand] argument plays no part. *)
Theorem get_work_item_returns_validated
  defaultProject connection config workItemId expand st response st' :
  handleWorkItemsRequest defaultProject connection
    (get_work_item (Some (mkGetArgs workItemId expand))) (Some config) st
  = (Ok response, st') ->
  exists workItem,
    response = TextOfWorkItem workItem
    /\ witGetWorkItem connection workItemId = Ok (Some workItem)
    /\ validateWorkItemTeamAccess config connection defaultProject workItem
         (logged (CallWitGetWorkItem workItemId) st) = (Ok tt, st').
Proof.
  destruct (configuredTeams (parseAllowedTeamBoards (allowedTeamBoards config)))
    as [allowed|] eqn:boards.
  - rewrite (handle_get _ _ _ _ _ _ boards). cbn [g_workItemId].
    destruct (fetchAndValidateWorkItem config connection defaultProject workItemId st)
      as [[workItem|e] st1] eqn:Hrun; [|discriminate].
    intros [= <- <-]. exists workItem. split; [reflexivity|].
    now apply fetchAndValidateWorkItem_Ok.
  - unfold handleWorkItemsRequest.
    rewrite (bind_err _ _ _ _ _
               (validateTeamBoardAccess_unconfigured config connection defaultProject
                  None st boards)).
    discriminate.
Qed.

Lemma get_work_item_returns_validated_witness :
  exists workItem,
    TextOfWorkItem Sample.onBetaBoard = TextOfWorkItem workItem
    /\ witGetWorkItem Sample.connection 2 = Ok (Some workItem)
    /\ validateWorkItemTeamAccess (Sample.config (Some "Beta")) Sample.connection
         "ProjectX" workItem (logged (CallWitGetWorkItem 2) Sample.fresh)
       = (Ok tt,
          mkState {[ "ProjectX" := [("beta", "id-beta")] ]}
            [CallWitGetWorkItem 2; CallGetTeams "ProjectX"]).
Proof.
  apply (get_work_item_returns_validated "ProjectX" Sample.connection
           (Sample.config (Some "Beta")) 2 (Some "relations") Sample.fresh).
  vm_compute. reflexivity.
Defined.

Lemma readOnly_getCache : readOnly getCache.
Proof. now intros st. Qed.

Lemma readOnly_putCache cache : readOnly (putCache cache).
Proof. now intros st. Qed.

Ltac read_only :=
  repeat first
    [ apply readOnly_ret | apply readOnly_throw
    | apply readOnly_getCache | apply readOnly_putCache
    | apply readOnly_getTeamNameById | apply readOnly_validateTeamBoardAccess
    | apply readOnly_fetchAndValidateWorkItem
    | (apply readOnly_await; reflexivity)
    | apply readOnly_bind
    | match goal with
      | |- forall _, _ => intro
      | |- readOnly (match ?x with _ => _ end) => destruct x
      | |- readOnly (if ?b then _ else _) => destruct b
      end ].

Lemma readOnly_getAllowedTeamIds connection projectId names :
  readOnly (getAllowedTeamIds connection projectId names).
Proof. unfold getAllowedTeamIds. read_only. Qed.

Lemma readOnly_parsed {A} (args : option A) : readOnly (parsed args).
Proof. unfold parsed. read_only. Qed.

(** X17: a get or list request never leads to a call that changes work
    items, whatever the configuration, the arguments and the answers of the
    service. *)
Theorem reading_requests_change_nothing
  defaultProject connection request config st :
  readsOnly request = true ->
  mutations (snd (handleWorkItemsRequest defaultProject connection request config st))
  = mutations st.
Proof.
  intros Hreads. revert st. change (readOnly
    (handleWorkItemsRequest defaultProject connection request config)).
  unfold handleWorkItemsRequest.
  destruct request as [args|args| | | | ]; try discriminate.
  - apply readOnly_bind; [destruct config; read_only|]. intros _.
    apply readOnly_bind; [apply readOnly_parsed|]. intros parsedArgs.
    destruct config; read_only.
  - apply readOnly_bind; [destruct config; read_only|]. intros _.
    apply readOnly_bind; [apply readOnly_parsed|]. intros parsedArgs.
    destruct config as [config|]; [|read_only].
    cbv zeta. destruct (configuredTeams _); [|read_only].
    destruct (present _); [read_only|].
    apply readOnly_bind; [apply readOnly_getAllowedTeamIds|]. read_only.
Qed.

Lemma reading_requests_change_nothing_witness :
  mutations
    (snd (handleWorkItemsRequest "ProjectX" Sample.connection
            (list_work_items (Some (mkListArgs None None None None None None)))
            (Some (Sample.config (Some "Alpha"))) Sample.fresh))
  = mutations Sample.fresh.
Proof.
  exact (reading_requests_change_nothing "ProjectX" Sample.connection
           (list_work_items (Some (mkListArgs None None None None None None)))
           (Some (Sample.config (Some "Alpha"))) Sample.fresh eq_refl).
Defined.

(** X18: under a configuration, a listing that names a team is served only
    after [validateTeamBoardAccess] has accepted that team in the requested
    project; the caller's own query, paging and team are then passed to
    [listWorkItems] unchanged.  When the team is refused, [listWorkItems] is
    not called. *)
Theorem list_work_items_of_a_team
  defaultProject connection config allowed args teamId st :
  configuredTeams (parseAllowedTeamBoards (allowedTeamBoards config)) = Some allowed ->
  present (l_teamId args) = Some teamId ->
  let projectId := default defaultProject (l_projectId args) in
  let options :=
    mkListOptions projectId (l_teamId args) (l_queryId args) (l_wiql args)
      (l_top args) (l_skip args) in
  handleWorkItemsRequest defaultProject connection (list_work_items (Some args))
    (Some config) st
  = match validateTeamBoardAccess config connection projectId (Some teamId) st with
    | (Ok _, st') =>
        (respond TextOfWorkItems (listWorkItems connection options),
         logged (CallListWorkItems options) st')
    | (Err e, st') => (Err e, st')
    end.
Proof.
  intros boards Hteam projectId options. unfold handleWorkItemsRequest.
  rewrite (bind_ok _ _ _ _ _ (validateTeamBoardAccess_no_team _ _ _ _ st boards)).
  unfold parsed. rewrite bind_ret. cbv beta zeta.
  rewrite boards, Hteam. fold projectId. fold options.
  unfold bind at 1.
  destruct (validateTeamBoardAccess config connection projectId (Some teamId) st)
    as [[[]|e] st']; [|reflexivity].
  unfold bind, await, logged, respond, ret.
  now destruct (listWorkItems connection options).
Qed.

Lemma list_work_items_of_a_team_witness :
  handleWorkItemsRequest "ProjectX" Sample.connection
    (list_work_items
       (Some (mkListArgs None (Some "id-gamma") None (Some "SELECT [System.Id] FROM WorkItems")
                None None)))
    (Some (Sample.config (Some "Alpha"))) Sample.fresh
  = (Err (AzureDevOpsValidationError (teamDeniedMessage "Gamma" ["Alpha"])),
     mkState {[ "ProjectX" := [("gamma", "id-gamma")] ]} [CallGetTeams "ProjectX"]).
Proof.
  exact (list_work_items_of_a_team "ProjectX" Sample.connection
           (Sample.config (Some "Alpha")) ["Alpha"]
           (mkListArgs None (Some "id-gamma") None (Some "SELECT [System.Id] FROM WorkItems")
              None None)
           "id-gamma" Sample.fresh eq_refl eq_refl).
Defined.

(** X19: under a configuration, a listing that names no team fails as soon
    as one name of the allow-list matches no team of the project and is not,
    in lower case, the name of an inherited property: the error lists those
    names and the teams of the project, the teams have been fetched, and
    [listWorkItems] is not called. *)
Theorem list_work_items_with_unmatched_board
  defaultProject connection config allowed args teams st :
  configuredTeams (parseAllowedTeamBoards (allowedTeamBoards config)) = Some allowed ->
  present (l_teamId args) = None ->
  coreGetTeams connection (default defaultProject (l_projectId args)) = Ok teams ->
  notFoundNames teams allowed <> [] ->
  let projectId := default defaultProject (l_projectId args) in
  exists st',
    handleWorkItemsRequest defaultProject connection (list_work_items (Some args))
      (Some config) st
    = (Err (AzureDevOpsValidationError
              (notFoundText projectId (notFoundNames teams allowed) teams)), st')
    /\ calls st' = calls st ++ [CallGetTeams projectId].
Proof.
  intros boards Hteam Hteams Hunmatched projectId.
  unfold handleWorkItemsRequest.
  rewrite (bind_ok _ _ _ _ _ (validateTeamBoardAccess_no_team _ _ _ _ st boards)).
  unfold parsed. rewrite bind_ret. cbv beta zeta.
  rewrite boards, Hteam. fold projectId.
  unfold bind at 1.
  rewrite (getAllowedTeamIds_run _ _ _ _ _ Hteams). cbv zeta.
  rewrite notFound_reported, notFoundMessage_text.
  destruct (notFoundNames teams allowed) as [|missing others]; [congruence|].
  exists (mkState
            (snd (List.fold_left (recordTeam projectId) teams (Obj.empty, teamCache st)))
            (calls st ++ [CallGetTeams projectId])).
  split; reflexivity.
Qed.

Lemma list_work_items_with_unmatched_board_witness :
  exists st',
    handleWorkItemsRequest "ProjectX" Sample.connection
      (list_work_items (Some (mkListArgs None None None None None None)))
      (Some (Sample.config (Some "Alpha, Omega, constructor"))) Sample.fresh
    = (Err (AzureDevOpsValidationError
              "The following team boards are not found in project 'ProjectX': Omega. Available teams: Alpha, Beta, Gamma. Please check AZURE_DEVOPS_ALLOWED_TEAM_BOARDS configuration."),
       st')
    /\ calls st' = [CallGetTeams "ProjectX"].
Proof.
  apply (list_work_items_with_unmatched_board "ProjectX" Sample.connection
           (Sample.config (Some "Alpha, Omega, constructor"))
           ["Alpha"; "Omega"; "constructor"]
           (mkListArgs None None None None None None) Sample.teams Sample.fresh
           eq_refl eq_refl eq_refl).
  vm_compute. discriminate.
Defined.

Example listing_with_an_inherited_name :
  List.last
    (calls (snd (handleWorkItemsRequest "ProjectX" Sample.connection
                   (list_work_items (Some (mkListArgs None None None None None None)))
                   (Some (Sample.config (Some "constructor"))) Sample.fresh)))
    (CallGetTeams "")
  = CallListWorkItems
      (mkListOptions "ProjectX" None None
         (Some (allowedTeamsWiql "ProjectX" ["constructor"])) None None).
Proof. vm_compute. reflexivity. Qed.

(** ** The cache across the router *)

Lemma cacheSteps_trans c1 c2 c3 :
  cacheSteps c1 c2 -> cacheSteps c2 c3 -> cacheSteps c1 c3.
Proof.
  intros H12 H23. induction H23 as [|c3 p name id _ IH Hname Hid]; [assumption|].
  now apply cacheSteps_more.
Qed.

Lemma cacheOnlyGrows_ret {A} (a : A) : cacheOnlyGrows (ret a).
Proof. intros st. apply cacheSteps_none. Qed.

Lemma cacheOnlyGrows_throw {A} (e : Error) : cacheOnlyGrows (@throw A e).
Proof. intros st. apply cacheSteps_none. Qed.

Lemma cacheOnlyGrows_await {A} (c : Call) (answer : Result A) :
  cacheOnlyGrows (await c answer).
Proof. intros st. apply cacheSteps_none. Qed.

Lemma cacheOnlyGrows_bind {A B} (m : M A) (k : A -> M B) :
  cacheOnlyGrows m -> (forall a, cacheOnlyGrows (k a)) -> cacheOnlyGrows (bind m k).
Proof.
  intros Hm Hk st. unfold bind. specialize (Hm st).
  destruct (m st) as [[a|e] st1]; simpl in *; [|assumption].
  apply cacheSteps_trans with (teamCache st1); [assumption | apply Hk].
Qed.

Lemma cacheOnlyGrows_getTeamNameById connection projectId teamId :
  cacheOnlyGrows (getTeamNameById connection projectId teamId).
Proof.
  intros st.
  destruct (cachedTeamName (teamCache st) projectId teamId) as [name|] eqn:Hcache.
  - rewrite (getTeamNameById_hit _ _ _ _ _ Hcache). apply cacheSteps_none.
  - rewrite (getTeamNameById_miss _ _ _ _ Hcache).
    destruct (coreGetTeams connection projectId) as [teams|error];
      [|apply cacheSteps_none].
    unfold resolvedTeam.
    destruct (List.find (hasId teamId) teams) as [team|]; [|apply cacheSteps_none].
    destruct (namedTeam team) as [[name id]|] eqn:Hnamed; [|apply cacheSteps_none].
    destruct (namedTeam_truthy _ _ _ Hnamed) as [Hname Hid].
    simpl. apply cacheSteps_more; [apply cacheSteps_none | assumption | assumption].
Qed.

Lemma cacheSteps_recorded cache projectId teams acc :
  cacheSteps cache (snd acc) ->
  cacheSteps cache (snd (List.fold_left (recordTeam projectId) teams acc)).
Proof.
  revert acc. induction teams as [|team rest IH]; intros acc Hacc; simpl; [assumption|].
  apply IH. rewrite recordTeam_namedTeam.
  destruct (namedTeam team) as [[name id]|] eqn:Hnamed; [|assumption].
  destruct (namedTeam_truthy _ _ _ Hnamed) as [Hname Hid].
  simpl. now apply cacheSteps_more.
Qed.

Lemma cacheOnlyGrows_getAllowedTeamIds connection projectId names :
  cacheOnlyGrows (getAllowedTeamIds connection projectId names).
Proof.
  intros st.
  destruct (coreGetTeams connection projectId) as [teams|error] eqn:Hteams.
  - rewrite (getAllowedTeamIds_cache _ _ _ _ _ Hteams).
    apply cacheSteps_recorded. apply cacheSteps_none.
  - unfold getAllowedTeamIds, bind, await. rewrite Hteams. apply cacheSteps_none.
Qed.

Ltac cache_grows :=
  repeat first
    [ apply cacheOnlyGrows_ret | apply cacheOnlyGrows_throw
    | apply cacheOnlyGrows_await
    | apply cacheOnlyGrows_getTeamNameById
    | apply cacheOnlyGrows_getAllowedTeamIds
    | apply cacheOnlyGrows_bind
    | match goal with
      | |- forall _, _ => intro
      | |- cacheOnlyGrows (match ?x with _ => _ end) => destruct x
      | |- cacheOnlyGrows (if ?b then _ else _) => destruct b
      end ].

Lemma cacheOnlyGrows_validateWorkItemTeamAccess config connection projectId workItem :
  cacheOnlyGrows (validateWorkItemTeamAccess config connection projectId workItem).
Proof. unfold validateWorkItemTeamAccess. cache_grows. Qed.

Lemma cacheOnlyGrows_validateTeamBoardAccess config connection projectId teamId :
  cacheOnlyGrows (validateTeamBoardAccess config connection projectId teamId).
Proof. unfold validateTeamBoardAccess. cache_grows. Qed.

Lemma cacheOnlyGrows_fetchAndValidateWorkItem config connection projectId workItemId :
  cacheOnlyGrows (fetchAndValidateWorkItem config connection projectId workItemId).
Proof.
  unfold fetchAndValidateWorkItem.
  apply cacheOnlyGrows_bind; [apply cacheOnlyGrows_await|].
  intros [workItem|]; [|apply cacheOnlyGrows_throw].
  apply cacheOnlyGrows_bind; [apply cacheOnlyGrows_validateWorkItemTeamAccess|].
  intros _. apply cacheOnlyGrows_ret.
Qed.

Ltac cache_grows_all :=
  repeat first
    [ apply cacheOnlyGrows_validateWorkItemTeamAccess
    | apply cacheOnlyGrows_validateTeamBoardAccess
    | apply cacheOnlyGrows_fetchAndValidateWorkItem
    | apply cacheOnlyGrows_ret | apply cacheOnlyGrows_throw
    | apply cacheOnlyGrows_await
    | apply cacheOnlyGrows_getTeamNameById
    | apply cacheOnlyGrows_getAllowedTeamIds
    | apply cacheOnlyGrows_bind
    | match goal with
      | |- forall _, _ => intro
      | |- cacheOnlyGrows (match ?x with _ => _ end) => destruct x
      | |- cacheOnlyGrows (if ?b then _ else _) => destruct b
      end ].

Lemma cacheOnlyGrows_handleWorkItemsRequest defaultProject connection request config :
  cacheOnlyGrows (handleWorkItemsRequest defaultProject connection request config).
Proof.
  unfold handleWorkItemsRequest.
  apply cacheOnlyGrows_bind; [destruct config; cache_grows_all|]. intros _.
  destruct request as [args|args|args|args|args|name]; [| | | | |cache_grows_all];
    (apply cacheOnlyGrows_bind; [unfold parsed; cache_grows_all|]); intros parsedArgs.
  - destruct config; cache_grows_all.
  - cbv zeta. destruct config as [config|]; [|cache_grows_all].
    destruct (configuredTeams _); [|cache_grows_all].
    destruct (present _); cache_grows_all.
  - cbv zeta. apply cacheOnlyGrows_bind; [unfold effectiveAreaPath|]; cache_grows_all.
  - apply cacheOnlyGrows_bind; [|cache_grows_all].
    destruct config; cache_grows_all.
  - cbv zeta. apply cacheOnlyGrows_bind; [|cache_grows_all].
    destruct config; cache_grows_all.
Qed.

Lemma cacheSteps_keeps cache cache' q key id :
  cacheSteps cache cache' -> cacheEntry cache q key = Some id ->
  exists id', cacheEntry cache' q key = Some id'.
Proof.
  intros Hsteps Hentry. induction Hsteps as [|c p name i _ IH _ _]; [now exists id|].
  rewrite cacheEntry_cacheTeam.
  destruct (String.eqb q p && String.eqb key (Js.toLowerCase name)); [now exists i|].
  exact IH.
Qed.

Lemma cacheSteps_wellFormed cache cache' :
  cacheSteps cache cache' -> cacheWellFormed cache -> cacheWellFormed cache'.
Proof.
  intros Hsteps Hwf. induction Hsteps as [|c p name i _ IH Hname Hid]; [assumption|].
  intros q key id. rewrite cacheEntry_cacheTeam.
  destruct (String.eqb q p); simpl; [|apply IH].
  destruct (String.eqb_spec key (Js.toLowerCase name)) as [->|_]; [|apply IH].
  intros [= <-]. split; [apply toLowerCase_idempotent | assumption].
Qed.

Lemma cacheWellFormed_empty : cacheWellFormed ∅.
Proof. intros q key id. unfold cacheEntry. rewrite lookup_empty. discriminate. Qed.

(** X20: no request makes the router forget a cached team: a name cached for
    a project before a request is still cached for it afterwards, whatever
    the request, the configuration and the answers of the service. *)
Theorem handleWorkItemsRequest_keeps_cached_teams
  defaultProject connection request config st q key id :
  cacheEntry (teamCache st) q key = Some id ->
  exists id',
    cacheEntry
      (teamCache (snd (handleWorkItemsRequest defaultProject connection request config st)))
      q key = Some id'.
Proof.
  apply cacheSteps_keeps. apply cacheOnlyGrows_handleWorkItemsRequest.
Qed.

Lemma handleWorkItemsRequest_keeps_cached_teams_witness :
  exists id',
    cacheEntry
      (teamCache
         (snd (handleWorkItemsRequest "ProjectX" Sample.connection
                 (list_work_items (Some (mkListArgs None None None None None None)))
                 (Some (Sample.config (Some "Alpha")))
                 (mkState {[ "ProjectX" := [("retired", "id-retired")] ]} []))))
      "ProjectX" "retired" = Some id'.
Proof.
  exact (handleWorkItemsRequest_keeps_cached_teams "ProjectX" Sample.connection
           (list_work_items (Some (mkListArgs None None None None None None)))
           (Some (Sample.config (Some "Alpha")))
           (mkState {[ "ProjectX" := [("retired", "id-retired")] ]} [])
           "ProjectX" "retired" "id-retired" eq_refl).
Defined.

(** X21: the router keeps the cache well formed: if every cached name is in
    lower case and every cached ID is not empty before a request, the same
    holds afterwards; it holds of the empty cache the process starts with. *)
Theorem handleWorkItemsRequest_keeps_cache_well_formed
  defaultProject connection request config st :
  cacheWellFormed (teamCache st) ->
  cacheWellFormed
    (teamCache (snd (handleWorkItemsRequest defaultProject connection request config st))).
Proof.
  apply cacheSteps_wellFormed. apply cacheOnlyGrows_handleWorkItemsRequest.
Qed.

Lemma handleWorkItemsRequest_keeps_cache_well_formed_witness :
  cacheWellFormed
    (teamCache
       (snd (handleWorkItemsRequest "ProjectX" Sample.connection
               (get_work_item (Some (mkGetArgs 2 None)))
               (Some (Sample.config (Some "Beta"))) Sample.fresh))).
Proof.
  exact (handleWorkItemsRequest_keeps_cache_well_formed "ProjectX" Sample.connection
           (get_work_item (Some (mkGetArgs 2 None)))
           (Some (Sample.config (Some "Beta"))) Sample.fresh cacheWellFormed_empty).
Defined.

(** ** The area path filled in at creation *)

Lemma parsed_single_truthy allowedTeamBoards team :
  parseAllowedTeamBoards allowedTeamBoards = Some [team] -> Js.truthy team = true.
Proof.
  destruct allowedTeamBoards as [raw|]; [|discriminate]. intros Hparse.
  apply parseAllowedTeamBoards_Some in Hparse.
  assert (Hin : In team (List.filter Js.truthy (List.map Js.trim (Js.split Js.comma raw))))
    by (rewrite <- Hparse; now left).
  now apply List.filter_In in Hin.
Qed.

(** X22: when one team is allowed and its name has no separator, the area
    path the router fills in at creation is one the validator accepts: a
    work item without team ID that lies at that path passes
    [validateWorkItemTeamAccess] in the same project, without any call. *)
Theorem filled_in_area_path_is_accepted
  config connection projectId team workItem st st0 :
  parseAllowedTeamBoards (allowedTeamBoards config) = Some [team] ->
  ~ In Js.backslash (list_ascii_of_string team) ->
  getWorkItemTeamId workItem = None ->
  getWorkItemAreaPath workItem = Some (projectId ++ String Js.backslash team)%string ->
  effectiveAreaPath (Some config) projectId None st0
  = (Ok (Some (projectId ++ String Js.backslash team)%string), st0)
  /\ validateWorkItemTeamAccess config connection projectId workItem st = (Ok tt, st).
Proof.
  intros Hparse Hnot Hid Harea. pose proof (parsed_single_truthy _ _ Hparse) as Htruthy.
  split.
  - unfold effectiveAreaPath. simpl present. now rewrite Hparse.
  - unfold validateWorkItemTeamAccess.
    rewrite Hparse, Hid, Harea. cbn [configuredTeams].
    rewrite extractTeamNameFromAreaPath_under_project.
    rewrite (split_without_separator _ _ Hnot), Htruthy.
    unfold present. rewrite Htruthy. unfold bind, ret.
    unfold isTeamAllowed. cbn [List.existsb]. now rewrite String.eqb_refl.
Qed.

Lemma filled_in_area_path_is_accepted_witness :
  effectiveAreaPath (Some (Sample.config (Some "Alpha"))) "ProjectX" None Sample.fresh
  = (Ok (Some "ProjectX\Alpha"), Sample.fresh)
  /\ validateWorkItemTeamAccess (Sample.config (Some "Alpha")) Sample.connection
       "ProjectX" (Sample.item 9 [("System.AreaPath", JsStr "ProjectX\Alpha")])
       Sample.fresh
     = (Ok tt, Sample.fresh).
Proof.
  apply (filled_in_area_path_is_accepted (Sample.config (Some "Alpha")) Sample.connection
           "ProjectX" "Alpha" (Sample.item 9 [("System.AreaPath", JsStr "ProjectX\Alpha")])
           Sample.fresh Sample.fresh eq_refl); [|reflexivity|reflexivity].
  vm_compute. intuition discriminate.
Defined.

Example separator_in_the_only_team_name :
  fst (validateWorkItemTeamAccess (Sample.config (Some "Ops\Night")) Sample.connection
         "ProjectX" (Sample.item 9 [("System.AreaPath", JsStr "ProjectX\Ops\Night")])
         Sample.fresh)
  = Err (AzureDevOpsValidationError
           (itemDeniedMessage (Sample.item 9 []) "Ops" ["Ops\Night"])).
Proof. vm_compute. reflexivity. Qed.

(** ** The names in the map of allowed teams *)

Lemma foundUnder_Some teams name found :
  foundUnder teams name = Some found ->
  (exists id, found = TeamId id /\ matchingTeamId teams name = Some id)
  \/ (found = InheritedValue (Js.toLowerCase name) /\ inheritedName name = true).
Proof.
  unfold foundUnder. cbv zeta.
  change (Obj.inherits (Js.toLowerCase name)) with (inheritedName name).
  destruct (String.eqb_spec (Js.toLowerCase name) "__proto__") as [Hproto|_].
  - intros [= <-]. right. split; [reflexivity | now apply inheritedName_proto].
  - destruct (matchingTeamId teams name) as [id|].
    + intros [= <-]. left. now exists id.
    + destruct (inheritedName name); [|discriminate]. intros [= <-]. now right.
Qed.

(** X23: the map [getAllowedTeamIds] returns has entries for requested names
    only, never one named "__proto__"; each entry holds the ID its name
    resolves to in the team list or, for a name that in lower case is the
    name of an inherited property, possibly what is inherited under it. *)
Theorem getAllowedTeamIds_entries_are_requested
  connection projectId names teams st result st' key ref :
  coreGetTeams connection projectId = Ok teams ->
  getAllowedTeamIds connection projectId names st = (Ok result, st') ->
  Obj.get key result = Some ref ->
  In key names
  /\ key <> "__proto__"
  /\ ((exists id, ref_id ref = TeamId id /\ matchingTeamId teams key = Some id)
      \/ (ref_id ref = InheritedValue (Js.toLowerCase key)
          /\ inheritedName key = true)).
Proof.
  intros Hteams Hrun. rewrite (getAllowedTeamIds_run _ _ _ _ _ Hteams) in Hrun.
  cbv zeta in Hrun.
  destruct (0 <? _)%nat; [discriminate|]. injection Hrun as <- _.
  rewrite result_resolved. simpl Obj.get.
  destruct (List.existsb (String.eqb key) names) eqn:Hrequested; [|discriminate].
  destruct (String.eqb_spec key "__proto__") as [->|Hproto]; [discriminate|].
  simpl. rewrite lookupTeamId_teamMap.
  destruct (foundUnder teams key) as [found|] eqn:Hfound; [|discriminate].
  intros [= <-]. split; [|split; [assumption | now apply foundUnder_Some]].
  apply List.existsb_exists in Hrequested as (name & Hin & Heq).
  apply String.eqb_eq in Heq. now subst.
Qed.

Lemma getAllowedTeamIds_entries_are_requested_witness :
  In "beta" ["beta"; "Alpha"]
  /\ "beta" <> "__proto__"
  /\ ((exists id, TeamId "id-beta" = TeamId id
                  /\ matchingTeamId Sample.teams "beta" = Some id)
      \/ (TeamId "id-beta" = InheritedValue (Js.toLowerCase "beta")
          /\ inheritedName "beta" = true)).
Proof.
  exact (getAllowedTeamIds_entries_are_requested Sample.connection "ProjectX"
           ["beta"; "Alpha"] Sample.teams Sample.fresh
           [("beta", mkTeamRef (TeamId "id-beta")); ("Alpha", mkTeamRef (TeamId "id-alpha"))]
           (mkState {[ "ProjectX" := [("alpha", "id-alpha"); ("beta", "id-beta");
                                      ("gamma", "id-gamma")] ]}
              [CallGetTeams "ProjectX"])
           "beta" (mkTeamRef (TeamId "id-beta")) eq_refl eq_refl eq_refl).
Defined.

Lemma own_names names :
  Forall (fun name => Js.toLowerCase name <> "constructor"
                      /\ Js.toLowerCase name <> "__proto__") names ->
  Forall (fun name => inheritedName name = false) names.
Proof.
  apply List.Forall_impl. intros name [Hconstructor Hproto].
  destruct (inheritedName name) eqn:Hinherited; [|reflexivity].
  destruct (inheritedName_lower _ Hinherited); contradiction.
Qed.

(** X25: names that in lower case are neither "constructor" nor "__proto__"
    are resolved against the fetched team list in one batch.  When some have
    no match, the one validation error raised lists all of them, in the
    order requested, and the names of all the teams of the project; when all
    match, the map returned has, for each requested name, the ID of its
    team. *)
Theorem getAllowedTeamIds_own_names_in_one_batch
  connection projectId names teams st :
  coreGetTeams connection projectId = Ok teams ->
  Forall (fun name => Js.toLowerCase name <> "constructor"
                      /\ Js.toLowerCase name <> "__proto__") names ->
  exists st',
    calls st' = calls st ++ [CallGetTeams projectId]
    /\ match unmatchedNames teams names with
       | [] =>
           exists result,
             getAllowedTeamIds connection projectId names st = (Ok result, st')
             /\ forall name, In name names ->
                  exists id, matchingTeamId teams name = Some id
                             /\ Obj.get name result = Some (mkTeamRef (TeamId id))
       | _ :: _ =>
           getAllowedTeamIds connection projectId names st
           = (Err (AzureDevOpsValidationError
                     (notFoundText projectId (unmatchedNames teams names) teams)),
              st')
       end.
Proof.
  intros Hteams Hnames. pose proof (own_names _ Hnames) as Hown.
  rewrite (getAllowedTeamIds_run _ _ _ _ _ Hteams). cbv zeta.
  rewrite notFound_reported, (notFoundNames_own _ _ Hown), notFoundMessage_text.
  exists (mkState
            (snd (List.fold_left (recordTeam projectId) teams (Obj.empty, teamCache st)))
            (calls st ++ [CallGetTeams projectId])).
  split; [reflexivity|].
  destruct (unmatchedNames teams names) as [|missing others] eqn:Hunmatched.
  - simpl. eexists. split; [reflexivity|].
    intros name Hin.
    destruct (unmatchedNames_nil _ _ Hunmatched name Hin) as [id Hid].
    exists id. split; [assumption|].
    rewrite List.Forall_forall in Hown, Hnames.
    destruct (Hnames name Hin) as [_ Hproto].
    rewrite result_resolved, (existsb_eqb_In _ _ Hin), lookupTeamId_teamMap.
    destruct (String.eqb_spec name "__proto__") as [->|_];
      [exfalso; now apply Hproto|].
    simpl. now rewrite (foundUnder_team _ _ (Hown name Hin)), Hid.
  - reflexivity.
Qed.

Lemma getAllowedTeamIds_own_names_in_one_batch_witness :
  exists st',
    getAllowedTeamIds Sample.connection "ProjectX" ["Delta"; "alpha"; "Omega"] Sample.fresh
    = (Err (AzureDevOpsValidationError
              "The following team boards are not found in project 'ProjectX': Delta, Omega. Available teams: Alpha, Beta, Gamma. Please check AZURE_DEVOPS_ALLOWED_TEAM_BOARDS configuration."),
       st').
Proof.
  destruct (getAllowedTeamIds_own_names_in_one_batch Sample.connection "ProjectX"
              ["Delta"; "alpha"; "Omega"] Sample.teams Sample.fresh eq_refl)
    as (st' & _ & Hrun).
  - repeat constructor; discriminate.
  - exists st'. exact Hrun.
Defined.

(** ** One change per request *)

Lemma mutatesAtMostOnce_readOnly {A} kind (m : M A) :
  readOnly m -> mutatesAtMostOnce kind m.
Proof. intros Hm st. left. apply Hm. Qed.

Lemma mutatesAtMostOnce_bind {A B} kind (m : M A) (k : A -> M B) :
  readOnly m -> (forall a, mutatesAtMostOnce kind (k a)) ->
  mutatesAtMostOnce kind (bind m k).
Proof.
  intros Hm Hk st. unfold bind. specialize (Hm st).
  destruct (m st) as [[a|e] st1]; simpl in *; [|now left].
  rewrite <- Hm. apply Hk.
Qed.

Lemma mutatesAtMostOnce_call {A} kind c (answer : Result A) (wrap : A -> CallToolResponse) :
  kind c = true -> isMutation c = true ->
  mutatesAtMostOnce kind (let! result := await c answer in ret (wrap result)).
Proof.
  intros Hkind Hmutation st. right. exists c. split; [assumption|].
  assert (Hstate : snd ((let! result := await c answer in ret (wrap result)) st)
                   = logged c st)
    by (unfold bind, await, ret, logged; now destruct answer).
  now rewrite Hstate, mutations_logged, Hmutation.
Qed.

Lemma readOnly_effectiveAreaPath config projectId areaPath :
  readOnly (effectiveAreaPath config projectId areaPath).
Proof. unfold effectiveAreaPath. read_only. Qed.

(** X24: a request changes work items by at most one call, and that call is
    the one of the requested tool: a create request never updates or links,
    an update request never creates or links, a link request never creates
    or updates, and the other requests change nothing. *)
Theorem handleWorkItemsRequest_changes_once
  defaultProject connection request config st :
  let st' := snd (handleWorkItemsRequest defaultProject connection request config st) in
  mutations st' = mutations st
  \/ exists c, ownMutation request c = true /\ mutations st' = mutations st ++ [c].
Proof.
  cbv zeta. revert st.
  change (mutatesAtMostOnce (ownMutation request)
            (handleWorkItemsRequest defaultProject connection request config)).
  unfold handleWorkItemsRequest.
  apply mutatesAtMostOnce_bind; [destruct config; read_only|]. intros _.
  destruct request as [args|args|args|args|args|name].
  - apply mutatesAtMostOnce_readOnly.
    apply readOnly_bind; [apply readOnly_parsed|]. intros parsedArgs.
    destruct config; read_only.
  - apply mutatesAtMostOnce_readOnly.
    apply readOnly_bind; [apply readOnly_parsed|]. intros parsedArgs.
    destruct config as [config|]; [|read_only].
    cbv zeta. destruct (configuredTeams _); [|read_only].
    destruct (present _); [read_only|].
    apply readOnly_bind; [apply readOnly_getAllowedTeamIds|]. read_only.
  - apply mutatesAtMostOnce_bind; [apply readOnly_parsed|]. intros parsedArgs.
    cbv zeta.
    apply mutatesAtMostOnce_bind; [apply readOnly_effectiveAreaPath|]. intros areaPath.
    now apply mutatesAtMostOnce_call.
  - apply mutatesAtMostOnce_bind; [apply readOnly_parsed|]. intros parsedArgs.
    apply mutatesAtMostOnce_bind; [destruct config; read_only|]. intros _.
    now apply mutatesAtMostOnce_call.
  - apply mutatesAtMostOnce_bind; [apply readOnly_parsed|]. intros parsedArgs.
    cbv zeta.
    apply mutatesAtMostOnce_bind; [destruct config; read_only|]. intros _.
    now apply mutatesAtMostOnce_call.
  - apply mutatesAtMostOnce_readOnly. read_only.
Qed.
